(** * NFWS moderation API: rate-limited inference dispatch

    A shallow embedding of the Go sources:
    - [internal/middleware/rate_limit.go]  (module [Middleware]),
    - [internal/services/onnx_service.go]  (module [Onnx]),
    - the NSFW scan service                (module [Services]),
    - the health handler                   (module [Handlers]).

    Instants of [time.Time] are integers counting nanoseconds from the zero
    value of [time.Time]; durations are integers counting nanoseconds.
    [int64] counters are integers with the wrap-around written out. *)

From Stdlib Require Import ZArith List String Ascii Lia.
From Stdlib Require QArith.
From stdpp Require Import gmap strings list fin_maps pretty sorting.

Local Open Scope Z_scope.

(* ===================================================================== *)
(** ** internal/middleware/rate_limit.go *)
(* ===================================================================== *)

Module Middleware.

(** The outcome of the handler: [c.Next()] or HTTP 429 with [c.Abort()]. *)
Inductive Admission := Allowed | Blocked.

#[global] Instance Admission_eq_dec : EqDecision Admission.
Proof. solve_decision. Defined.

(** The zero value of [time.Time]. *)
Definition zeroTime : Z := 0.

(** [type Visitor struct { Requests []time.Time; BlockedUntil time.Time }] *)
Record Visitor := mkVisitor {
  Requests : list Z;
  BlockedUntil : Z
}.

(** [type RateLimitMiddleware struct]: the visitor map and the three
    settings given to the constructor. *)
Record RateLimitMiddleware := mkRateLimit {
  visitors : gmap string Visitor;
  limit : Z;
  window : Z;
  blockWindow : Z
}.

Definition NewRateLimitMiddleware (limit window blockWindow : Z) : RateLimitMiddleware :=
  mkRateLimit ∅ limit window blockWindow.

Definition set_visitors (r : RateLimitMiddleware) (vs : gmap string Visitor) : RateLimitMiddleware :=
  mkRateLimit vs (limit r) (window r) (blockWindow r).

(** The loop that keeps the requests with [reqTime.After(cutoff)]. *)
Definition prune (cutoff : Z) (reqs : list Z) : list Z :=
  filter (λ reqTime, cutoff < reqTime) reqs.

(** The handler returned by [RateLimit()], run for client [ip].  The handler
    reads the clock up to three times: [t1] in the blocked test, [t2] for
    [now], [t3] when it sets the block. *)
Definition RateLimit (r : RateLimitMiddleware) (ip : string) (t1 t2 t3 : Z)
  : RateLimitMiddleware * Admission :=
  let found := visitors r !! ip in
  let isBlocked :=
    match found with
    | Some visitor => bool_decide (t1 < BlockedUntil visitor)
    | None => false
    end in
  if isBlocked then (r, Blocked)
  else
    let visitor := default (mkVisitor [] zeroTime) found in
    let now := t2 in
    let cutoff := now - window r in
    let newRequests := prune cutoff (Requests visitor) in
    if bool_decide (limit r ≤ Z.of_nat (length newRequests)) then
      (set_visitors r
         (<[ip := mkVisitor newRequests (t3 + blockWindow r)]> (visitors r)),
       Blocked)
    else
      (set_visitors r
         (<[ip := mkVisitor (newRequests ++ [now]) (BlockedUntil visitor)]> (visitors r)),
       Allowed).

(** One round of the ticker loop of [cleanupOldEntries], at instant [now]. *)
Definition stale (now : Z) (v : Visitor) : Prop :=
  length (Requests v) = 0%nat ∧ ¬ (now < BlockedUntil v).

#[global] Instance stale_dec now v : Decision (stale now v).
Proof. unfold stale. apply _. Defined.

Definition cleanupOldEntries (r : RateLimitMiddleware) (now : Z) : RateLimitMiddleware :=
  set_visitors r (filter (λ kv : string * Visitor, ¬ stale now kv.2) (visitors r)).

(** *** Runs of the limiter *)

(** What happens to the limiter: a request of a client, with the three clock
    readings and the decision taken, or a round of the cleanup loop. *)
Inductive Event :=
| EvRequest (ip : string) (t1 t2 t3 : Z) (d : Admission)
| EvCleanup (now : Z).

Definition step (r : RateLimitMiddleware) (ev : Event) (r' : RateLimitMiddleware) : Prop :=
  match ev with
  | EvRequest ip t1 t2 t3 d => RateLimit r ip t1 t2 t3 = (r', d)
  | EvCleanup now => r' = cleanupOldEntries r now
  end.

Inductive exec : RateLimitMiddleware → list Event → RateLimitMiddleware → Prop :=
| exec_nil r : exec r [] r
| exec_cons r ev r1 tr r2 : step r ev r1 → exec r1 tr r2 → exec r (ev :: tr) r2.

(** The clock never goes back: the readings of a run lie between [lo] and
    [hi] and do not decrease. *)
Fixpoint chrono (lo : Z) (tr : list Event) (hi : Z) : Prop :=
  match tr with
  | [] => lo ≤ hi
  | EvRequest _ t1 t2 t3 _ :: tr' => lo ≤ t1 ∧ t1 ≤ t2 ∧ t2 ≤ t3 ∧ chrono t3 tr' hi
  | EvCleanup now :: tr' => lo ≤ now ∧ chrono now tr' hi
  end.

Definition is_request_of (ip : string) (ev : Event) : Prop :=
  match ev with
  | EvRequest ip' _ _ _ _ => ip' = ip
  | EvCleanup _ => False
  end.

(** The admitted requests of [ip] in a run whose [now] is after [cutoff]. *)
Fixpoint admitted_since (ip : string) (cutoff : Z) (tr : list Event) : nat :=
  match tr with
  | [] => 0%nat
  | EvRequest ip' _ t2 _ Allowed :: tr' =>
      let hit := bool_decide (ip' = ip ∧ cutoff < t2) in
      ((if hit then 1 else 0) + admitted_since ip cutoff tr')%nat
  | _ :: tr' => admitted_since ip cutoff tr'
  end.

(** The requests of [ip] on record that are after [cutoff]. *)
Definition recent (ip : string) (cutoff : Z) (r : RateLimitMiddleware) : nat :=
  match visitors r !! ip with
  | Some v => length (prune cutoff (Requests v))
  | None => 0%nat
  end.

Definition blocked_until (ip : string) (r : RateLimitMiddleware) : Z :=
  match visitors r !! ip with
  | Some v => BlockedUntil v
  | None => zeroTime
  end.

(** The test [exists && time.Now().Before(visitor.BlockedUntil)]. *)
Definition blocked_at (ip : string) (r : RateLimitMiddleware) (t : Z) : Prop :=
  ∃ v, visitors r !! ip = Some v ∧ t < BlockedUntil v.

#[global] Instance blocked_at_dec ip r t : Decision (blocked_at ip r t).
Proof.
  unfold blocked_at. destruct (visitors r !! ip) as [v|].
  - destruct (decide (t < BlockedUntil v)); [left; eauto | right].
    intros (v' & ? & ?); simplify_eq. done.
  - right. intros (v' & ? & ?); simplify_eq.
Defined.

#[global] Instance is_request_of_dec ip ev : Decision (is_request_of ip ev).
Proof. destruct ev; simpl; apply _. Defined.

(** What the records look like at instant [now] in a run that started from
    an empty map: no request on record is later than [now], and under a
    block every request on record is from before the block was set. *)
Definition timely (D now : Z) (v : Visitor) : Prop :=
  Forall (λ e, e ≤ now) (Requests v)
  ∧ (now < BlockedUntil v → Forall (λ e, e + D ≤ BlockedUntil v) (Requests v)).

Definition inv (r : RateLimitMiddleware) (now : Z) : Prop :=
  ∀ ip v, visitors r !! ip = Some v → timely (blockWindow r) now v.

(** The requests on record of [ip] are from before its block was set. *)
Definition before_block (ip : string) (r : RateLimitMiddleware) : Prop :=
  ∀ v, visitors r !! ip = Some v →
       Forall (λ e, e + blockWindow r ≤ BlockedUntil v) (Requests v).

(** The record the handler works on: the one on the map, or a fresh one. *)
Definition entry_of (r : RateLimitMiddleware) (ip : string) : Visitor :=
  default (mkVisitor [] zeroTime) (visitors r !! ip).

(** Replaying a run: the state it ends in, when every decision it records
    is the one the handler takes. *)
Fixpoint replay (r : RateLimitMiddleware) (tr : list Event) : option RateLimitMiddleware :=
  match tr with
  | [] => Some r
  | EvRequest ip t1 t2 t3 d :: tr' =>
      let res := RateLimit r ip t1 t2 t3 in
      if decide (res.2 = d) then replay res.1 tr' else None
  | EvCleanup now :: tr' => replay (cleanupOldEntries r now) tr'
  end.

(** *** Scenarios *)

Definition second : Z := 1000000000.
Definition minute : Z := 60 * second.
Definition hour : Z := 60 * minute.

(** A request whose three clock readings are the same instant. *)
Definition request_at (ip : string) (t : Z) (d : Admission) : Event := EvRequest ip t t t d.

(** Limit 3 in a window of 60 s, blocks of one hour: three requests admitted. *)
Definition scenarioA_limiter : RateLimitMiddleware := NewRateLimitMiddleware 3 minute hour.
Definition scenarioA_run : list Event :=
  [request_at "203.0.113.7" (1 * second) Allowed;
   request_at "203.0.113.7" (2 * second) Allowed;
   request_at "203.0.113.7" (3 * second) Allowed].
Definition scenarioA_state : RateLimitMiddleware :=
  default scenarioA_limiter (replay scenarioA_limiter scenarioA_run).

(** The same run, then the refused fourth request. *)
Definition scenarioB_run : list Event :=
  scenarioA_run ++ [request_at "203.0.113.7" (4 * second) Blocked].
Definition scenarioB_state : RateLimitMiddleware :=
  default scenarioA_limiter (replay scenarioA_limiter scenarioB_run).

(** A limiter whose blocks (10 s) are shorter than its window (60 s), limit 2:
    two requests admitted, the third refused. *)
Definition short_block_limiter : RateLimitMiddleware :=
  NewRateLimitMiddleware 2 minute (10 * second).
Definition short_block_run : list Event :=
  [request_at "203.0.113.7" (1 * second) Allowed;
   request_at "203.0.113.7" (2 * second) Allowed;
   request_at "203.0.113.7" (3 * second) Blocked].
Definition short_block_state : RateLimitMiddleware :=
  default short_block_limiter (replay short_block_limiter short_block_run).

End Middleware.

(* ===================================================================== *)
(** ** internal/models *)
(* ===================================================================== *)

(** Scores are [float64] in the source; they are rationals here, and the
    comparisons with the threshold are exact. *)
Definition score : Set := QArith_base.Q.

Module ScanRequest.
Record t := mk { Model : string; ImageBase64 : string; ImageURL : string }.
End ScanRequest.

Module BatchImageItem.
Record t := mk { ID : string; ImageBase64 : string; ImageURL : string }.
End BatchImageItem.

Module BatchScanRequest.
Record t := mk { Model : string; Images : list BatchImageItem.t }.
End BatchScanRequest.

Module DetectionResult.
Record t := mk { Class : string; Confidence : score; Box : list score }.
End DetectionResult.

Module ScanResponse.
Record t := mk {
  Model : string;
  NSFWScore : score;
  SafeScore : score;
  IsNSFW : bool;
  Confidence : score;
  ProcessingTimeMs : Z;
  Detections : list DetectionResult.t
}.
End ScanResponse.

Module BatchScanResult.
Record t := mk { ID : string; NSFWScore : score; IsNSFW : bool; ProcessingTimeMs : Z }.
End BatchScanResult.

Module BatchScanResponse.
Record t := mk { Results : list BatchScanResult.t }.
End BatchScanResponse.

Module StatsResponse.
Record t := mk { TotalScans : Z; NSFWDetected : Z; AvgResponseTimeMs : score }.
End StatsResponse.

Module ReadyResponse.
Record t := mk { Status : string }.
End ReadyResponse.

(* ===================================================================== *)
(** ** Go values *)
(* ===================================================================== *)

Module Go.

(** [int64] arithmetic wraps around. *)
Definition wrap64 (z : Z) : Z := (z + 2 ^ 63) mod 2 ^ 64 - 2 ^ 63.
Definition maxInt64 : Z := 2 ^ 63 - 1.
Definition minInt64 : Z := - 2 ^ 63.
Arguments wrap64 : simpl never.
Arguments maxInt64 : simpl never.
Arguments minInt64 : simpl never.

(** A [[]byte]: the backing array from the slice's first element on (its
    length is the capacity) and the length of the slice. *)
Record ByteSlice := mkSlice { backing : list Byte.byte; len : nat }.

Definition cap (s : ByteSlice) : nat := length (backing s).
Definition bytes (s : ByteSlice) : list Byte.byte := take (len s) (backing s).

(** [make([]byte, n)] holds zeros. *)
Definition zeros (n : nat) : list Byte.byte := replicate n Byte.x00.

(** The slice expression [s[:high]]: in range up to the capacity of [s], a
    run-time panic beyond it. *)
Definition slice_to (s : ByteSlice) (high : nat) : option ByteSlice :=
  if decide (high ≤ cap s)%nat then Some (mkSlice (backing s) high) else None.

(** [time.Duration.Milliseconds]: integer division of the nanoseconds. *)
Definition Milliseconds (d : Z) : Z := d `quot` 1000000.

(** [strings.ToLower], on ASCII letters. *)
Definition lower_ascii (c : ascii) : ascii :=
  let n := N_of_ascii c in
  if ((65 <=? n) && (n <=? 90))%N then ascii_of_N (n + 32) else c.

Fixpoint ToLower (s : string) : string :=
  match s with
  | EmptyString => EmptyString
  | String c s' => String (lower_ascii c) (ToLower s')
  end.

(** [strings.HasPrefix s p]. *)
Definition HasPrefix (s p : string) : bool := String.prefix p s.

(** [strings.Index(s, ",")] and the slice [s[idx+1:]]: what follows the first
    comma, when there is one. *)
Fixpoint after_comma (s : string) : option string :=
  match s with
  | EmptyString => None
  | String c s' => if Ascii.eqb c "," then Some s' else after_comma s'
  end.

(** *** encoding/base64, [StdEncoding.DecodeString] *)

Definition b64_value (c : ascii) : option N :=
  let n := N_of_ascii c in
  if ((65 <=? n) && (n <=? 90))%N then Some (n - 65)%N
  else if ((97 <=? n) && (n <=? 122))%N then Some (n - 71)%N
  else if ((48 <=? n) && (n <=? 57))%N then Some (n + 4)%N
  else if (n =? 43)%N then Some 62%N
  else if (n =? 47)%N then Some 63%N
  else None.

Definition byte_of_N (n : N) : Byte.byte := byte_of_ascii (ascii_of_N (n mod 256)).

(** One quantum of four characters gives three bytes. *)
Definition quantum (a b c d : N) : list Byte.byte :=
  let v := (a * 262144 + b * 4096 + c * 64 + d)%N in
  [byte_of_N (v / 65536); byte_of_N (v / 256); byte_of_N v].

Definition is_pad (c : ascii) : bool := Ascii.eqb c "=".
Definition is_newline (c : ascii) : bool :=
  Ascii.eqb c (ascii_of_N 10) || Ascii.eqb c (ascii_of_N 13).

(** The decoder skips line breaks, takes the characters four by four, and
    accepts padding only to complete the last quantum. *)
Fixpoint decode_quanta (cs : list ascii) : option (list Byte.byte) :=
  match cs with
  | [] => Some []
  | a :: b :: c :: d :: rest =>
      match b64_value a, b64_value b with
      | Some va, Some vb =>
          match b64_value c, b64_value d with
          | Some vc, Some vd =>
              match decode_quanta rest with
              | Some out => Some (quantum va vb vc vd ++ out)
              | None => None
              end
          | Some vc, None =>
              if is_pad d && bool_decide (rest = [])
              then Some (take 2 (quantum va vb vc 0)) else None
          | None, _ =>
              if is_pad c && is_pad d && bool_decide (rest = [])
              then Some (take 1 (quantum va vb 0 0)) else None
          end
      | _, _ => None
      end
  | _ => None
  end.

(** [DecodedLen(n)] of the padded encoding. *)
Definition DecodedLen (n : nat) : nat := (n / 4 * 3)%nat.

(** [DecodeString] allocates [DecodedLen(len(s))] bytes and returns the
    decoded prefix of that buffer. *)
Definition DecodeString (s : string) : option ByteSlice :=
  let cs := list_ascii_of_string s in
  match decode_quanta (filter (λ c, is_newline c = false) cs) with
  | Some out =>
      let n := length out in
      Some (mkSlice (out ++ zeros (DecodedLen (length cs) - n)) n)
  | None => None
  end.

(** [io.ReadAll] starts from a buffer of capacity 512 and grows it when it
    is full: the capacity of its result is at least 512. *)
Definition ReadAll (data : list Byte.byte) : ByteSlice :=
  mkSlice (data ++ zeros (512 - length data)) (length data).

End Go.

(* ===================================================================== *)
(** ** internal/config *)
(* ===================================================================== *)

Module Config.
Record t := mk {
  Port : string;
  APIKey : string;
  NSFWThreshold : score;
  MaxFileSizeMB : Z;
  EnableGPU : bool;
  LogLevel : string;
  ModelDir : string
}.
End Config.

(* ===================================================================== *)
(** ** What the services run on *)
(* ===================================================================== *)

Module Runtime.

(** The answer of [client.Do] to a GET, within the 30 s of the request's
    context: the request cannot be built, no response comes, or a response
    with its status code, its declared [ContentLength] (-1 when unknown), its
    body and whether the body can be read to its end. *)
Inductive HttpResult :=
| HttpBadRequest
| HttpNoResponse
| HttpResponse (status : Z) (contentLength : Z) (body : list Byte.byte) (readOk : bool).

(** What the process does not decide: the clock (its n-th reading), the
    model files on disk, the network, the image decoders, standard input. *)
Record Env := mkEnv {
  clock : nat → Z;
  statOk : string → bool;
  httpGet : string → HttpResult;
  decodeConfigOk : list Byte.byte → bool;
  stdinDecodes : nat → bool
}.

(** A [context.Context], as far as the code looks at it: whether [Done] is
    closed once the clock has been read [n] times. *)
Definition Context : Type := nat → bool.
Definition Background : Context := λ _, false.

(** The errors the services build, by the message each one carries. *)
Inductive Error :=
| ErrModelNotFound (model : string)          (* model '%s' not found *)
| ErrUnsupportedOperation (model : string)   (* model '%s' does not support detection *)
| ErrGetImageData (cause : Error)            (* failed to get image data: %w *)
| ErrMissingImageSource                      (* either image_base64 or image_url must be provided *)
| ErrDecodeBase64                            (* failed to decode base64: %w *)
| ErrPayloadTooLarge (mb : Z)                (* file size exceeds limit of %d MB *)
| ErrCreateRequest                           (* failed to create request: %w *)
| ErrDownload                                (* failed to download image: %w *)
| ErrDownloadStatus (code : Z)               (* failed to download image: status code %d *)
| ErrReadBody                                (* failed to read response body: %w *)
| ErrInvalidImageFormat                      (* invalid image format: %w *)
| ErrInference (cause : Error)               (* inference failed: %w *)
| ErrRateLimitExceeded                       (* Rate limit exceeded *)
| ErrOnnxModelNotFound (model : string)      (* Model not found: ... *)
| ErrPostprocessing                          (* Postprocessing failed: ... *)
| ErrContext.                                (* ctx.Err() *)

(** How a call ends: a value, an error, or a run-time panic. *)
Inductive Outcome (A : Type) :=
| Ok (a : A)
| Err (e : Error)
| Panic.
Arguments Ok {A} a.
Arguments Err {A} e.
Arguments Panic {A}.

(** What a call does that can be seen from outside. *)
Inductive Effect :=
| EffDecodeBase64 (text : string)
| EffHttpGet (url : string)
| EffInference (model : string)
| EffLogError (msg id : string).

End Runtime.

(* ===================================================================== *)
(** ** golang.org/x/time/rate *)
(* ===================================================================== *)

Module Rate.

(** The token bucket of [rate.Limiter], from the library's documentation: a
    bucket of [burst] tokens, full at first, refilled at [perSecond] tokens a
    second; [Allow] takes one token when there is one and reports whether it
    did.  Tokens are counted in billionths, so that the refill over a number
    of nanoseconds is exact. *)
Record Limiter := mk { perSecond : Z; burst : Z; tokens : Z; last : Z }.

Definition token : Z := 1000000000.

Definition NewLimiter (r : Z) (b : Z) : Limiter := mk r b (b * token) 0.

Definition advance (lim : Limiter) (t : Z) : Z :=
  let last := if t <? last lim then t else last lim in
  Z.min (burst lim * token) (tokens lim + (t - last) * perSecond lim).

Definition Allow (lim : Limiter) (t : Z) : bool * Limiter :=
  let tokens := advance lim t - token in
  if 0 <=? tokens then (true, mk (perSecond lim) (burst lim) tokens t)
  else (false, lim).

End Rate.

(* ===================================================================== *)
(** ** internal/services: state *)
(* ===================================================================== *)

Module ONNXModel.
Inductive Processing := Standard | NudeNet.
Record t := mk { Name : string; Path : string; Processing_ : Processing }.
End ONNXModel.

Module ONNXRuntimeService.
Record t := mk {
  config : Config.t;
  models : gmap string ONNXModel.t;
  limiter : Rate.Limiter
}.
End ONNXRuntimeService.

Module Stats.
Record t := mk { TotalScans : Z; NSFWDetected : Z; TotalProcessingTime : Z }.
End Stats.

Module ModelInstance.
Record t := mk { Name : string; Path : string }.
End ModelInstance.

Module NSFWService.
Record t := mk {
  config : Config.t;
  models : gmap string ModelInstance.t;
  onnxService : ONNXRuntimeService.t;
  stats : Stats.t
}.
End NSFWService.

(** The service, the number of clock readings so far and what has been done
    so far. *)
Record World := mkWorld {
  service : NSFWService.t;
  ticks : nat;
  effects : list Runtime.Effect
}.

(** Code that reads and changes the world. *)
Definition St (A : Type) : Type := World → A * World.

Definition ret {A} (a : A) : St A := λ w, (a, w).
Definition bind {A B} (m : St A) (k : A → St B) : St B :=
  λ w, let (a, w') := m w in k a w'.

Declare Scope st_scope.
Delimit Scope st_scope with st.
Notation "'let*' x ':=' m 'in' k" := (bind m (λ x, k))
  (at level 10, x binder, m at level 100, k at level 200) : st_scope.
Notation "'do' m 'in' k" := (bind m (λ _, k))
  (at level 10, m at level 100, k at level 200) : st_scope.


(* ===================================================================== *)
(** ** internal/services/onnx_service.go *)
(* ===================================================================== *)

Module Onnx.
Import Runtime Go.
Local Open Scope st_scope.

(** The model names the services know, with their files. *)
Definition modelFiles : list (string * string) :=
  [("mobilenetv2-7", "mobilenetv2-7.onnx");
   ("nsfw_squeezenet", "nsfw_squeezenet.onnx");
   ("NudeNet-320n", "NudeNet-320n.onnx");
   ("NudeNet-640m", "NudeNet-640m.onnx")]%string.

(** [filepath.Join] of a directory and a file name. *)
Definition filepath_Join (dir file : string) : string := (dir ++ "/" ++ file)%string.

(** The [switch modelName] of [loadModels]. *)
Definition processingFor (modelName : string) : ONNXModel.Processing :=
  if (String.eqb modelName "NudeNet-320n" || String.eqb modelName "NudeNet-640m")%string
  then ONNXModel.NudeNet else ONNXModel.Standard.

Definition q (n : Z) (d : positive) : score := QArith_base.Qmake n d.

(** [x >= s.config.NSFWThreshold].  The standard postprocessing makes this
    comparison in [float32], where the threshold is rounded first; the
    rationals here do not model that rounding, and no statement below
    relates the flag of a response to the score it reports. *)
Definition reaches (cfg : Config.t) (x : score) : bool :=
  QArith_base.Qle_bool (Config.NSFWThreshold cfg) x.

Definition postprocessingStandard (cfg : Config.t) (outputs : list score)
  : option ScanResponse.t :=
  match outputs with
  | safeScore :: nsfwScore :: _ =>
      let confidence :=
        if QArith_base.Qle_bool safeScore nsfwScore then nsfwScore else safeScore in
      Some (ScanResponse.mk "" nsfwScore safeScore (reaches cfg nsfwScore) confidence 0 [])
  | _ => None
  end.

Definition postprocessingNudeNet (cfg : Config.t) (outputs : list score)
  : option ScanResponse.t :=
  Some (ScanResponse.mk "" (q 5 10) (q 5 10) (reaches cfg (q 5 10)) (q 5 10) 0 []).

Definition postprocess (cfg : Config.t) (m : ONNXModel.t) : list score → option ScanResponse.t :=
  match ONNXModel.Processing_ m with
  | ONNXModel.Standard => postprocessingStandard cfg
  | ONNXModel.NudeNet => postprocessingNudeNet cfg
  end.

(** The response built when the image on standard input cannot be decoded. *)
Definition mock_response (cfg : Config.t) (modelName : string) : ScanResponse.t :=
  ScanResponse.mk modelName (q 3 10) (q 7 10) (reaches cfg (q 3 10)) (q 7 10) 100 [].

Definition set_model_and_time (r : ScanResponse.t) (modelName : string) (ms : Z) : ScanResponse.t :=
  ScanResponse.mk modelName (ScanResponse.NSFWScore r) (ScanResponse.SafeScore r)
    (ScanResponse.IsNSFW r) (ScanResponse.Confidence r) ms (ScanResponse.Detections r).

Definition GetLoadedModels (s : ONNXRuntimeService.t) : list string :=
  (map_to_list (ONNXRuntimeService.models s)).*1.

Section WithEnv.
Context (E : Env).

Definition loadModels (cfg : Config.t) : gmap string ONNXModel.t :=
  foldl (λ (models : gmap string ONNXModel.t) (entry : string * string),
           let modelPath := filepath_Join (Config.ModelDir cfg) entry.2 in
           if statOk E modelPath
           then <[entry.1 := ONNXModel.mk entry.1 modelPath (processingFor entry.1)]> models
           else models)
        ∅ modelFiles.

(** [rate.NewLimiter(rate.Limit(10), 20)] *)
Definition NewONNXRuntimeService (cfg : Config.t) : ONNXRuntimeService.t :=
  ONNXRuntimeService.mk cfg (loadModels cfg) (Rate.NewLimiter 10 20).

(** Reading the clock, and the other steps on the world. *)
Definition now : St Z :=
  λ w, (clock E (ticks w), mkWorld (service w) (S (ticks w)) (effects w)).

Definition since (start : Z) : St Z :=
  let* t := now in ret (Milliseconds (t - start)).

Definition emit (e : Effect) : St unit :=
  λ w, (tt, mkWorld (service w) (ticks w) (effects w ++ [e])).

Definition get_onnx : St ONNXRuntimeService.t :=
  λ w, (NSFWService.onnxService (service w), w).

Definition get_ticks : St nat := λ w, (ticks w, w).

Definition set_limiter (lim : Rate.Limiter) : St unit :=
  λ w, let s := service w in
       let o := NSFWService.onnxService s in
       (tt, mkWorld
              (NSFWService.mk (NSFWService.config s) (NSFWService.models s)
                 (ONNXRuntimeService.mk (ONNXRuntimeService.config o)
                    (ONNXRuntimeService.models o) lim)
                 (NSFWService.stats s))
              (ticks w) (effects w)).

Definition preprocessAndRunInference (modelName : string) (imageData : ByteSlice)
  : St (Outcome ScanResponse.t) :=
  do emit (EffInference modelName) in
  let* s := get_onnx in
  let* t := now in
  let allowed := Rate.Allow (ONNXRuntimeService.limiter s) t in
  do set_limiter allowed.2 in
  if negb allowed.1 then ret (Err ErrRateLimitExceeded)
  else
    match ONNXRuntimeService.models s !! modelName with
    | None => ret (Err (ErrOnnxModelNotFound modelName))
    | Some model =>
        let* n := get_ticks in
        if negb (stdinDecodes E n)
        then ret (Ok (mock_response (ONNXRuntimeService.config s) modelName))
        else
          let outputs := [q 3 10; q 7 10] in
          match postprocess (ONNXRuntimeService.config s) model outputs with
          | None => ret (Err ErrPostprocessing)
          | Some response => ret (Ok (set_model_and_time response modelName 100))
          end
    end.

Definition RunInference (ctx : Context) (modelName : string) (imageData : ByteSlice)
  : St (Outcome ScanResponse.t) :=
  let* startTime := now in
  let* n := get_ticks in
  if ctx n then ret (Err ErrContext)
  else
    let* r := preprocessAndRunInference modelName imageData in
    match r with
    | Ok result =>
        let* ms := since startTime in
        ret (Ok (set_model_and_time result (ScanResponse.Model result) ms))
    | Err e => ret (Err e)
    | Panic => ret Panic
    end.

End WithEnv.
End Onnx.

(* ===================================================================== *)
(** ** internal/services: the NSFW service *)
(* ===================================================================== *)

Module Services.
Import Runtime Go.
Export Onnx.
Local Open Scope st_scope.

(** *** The statistics *)

(** [updateStats], on the counters it locks. *)
Definition updateStats (processingTimeMs : Z) (isNSFW : bool) (st : Stats.t) : Stats.t :=
  Stats.mk
    (wrap64 (Stats.TotalScans st + 1))
    (if isNSFW then wrap64 (Stats.NSFWDetected st + 1) else Stats.NSFWDetected st)
    (wrap64 (Stats.TotalProcessingTime st + wrap64 (processingTimeMs * 1000000))).

(** [updateTotalScans], on the counters it locks. *)
Definition updateTotalScans (count : Z) (totalProcessingTimeMs : Z) (st : Stats.t) : Stats.t :=
  Stats.mk
    (wrap64 (Stats.TotalScans st + count))
    (Stats.NSFWDetected st)
    (wrap64 (Stats.TotalProcessingTime st + wrap64 (totalProcessingTimeMs * 1000000))).

(** [GetStats]: the counters stay as they are. *)
Definition GetStats (st : Stats.t) : StatsResponse.t :=
  let avgResponseTimeMs :=
    if 0 <? Stats.TotalScans st
    then QArith_base.Qmake (Milliseconds (Stats.TotalProcessingTime st))
                           (Z.to_pos (Stats.TotalScans st))
    else QArith_base.Qmake 0 1 in
  StatsResponse.mk (Stats.TotalScans st) (Stats.NSFWDetected st) avgResponseTimeMs.

(** The operations on the counters.  The aggregate record of a batch is
    called with [len(results)], a natural number. *)
Inductive StatsOp :=
| OpRecord (processingTimeMs : Z) (isNSFW : bool)
| OpRecordBatch (count : nat) (totalProcessingTimeMs : Z)
| OpSnapshot.

Definition apply_op (op : StatsOp) (st : Stats.t) : Stats.t :=
  match op with
  | OpRecord ms isNSFW => updateStats ms isNSFW st
  | OpRecordBatch count ms => updateTotalScans (Z.of_nat count) ms st
  | OpSnapshot => let _ := GetStats st in st
  end.

(** The counters are within [int64], and the positive detections are among
    the scans. *)
Definition stats_ok (st : Stats.t) : Prop :=
  0 ≤ Stats.NSFWDetected st ∧ Stats.NSFWDetected st ≤ Stats.TotalScans st
  ∧ Stats.TotalScans st ≤ maxInt64.

(** The scans an operation adds. *)
Definition scans_added (op : StatsOp) : Z :=
  match op with
  | OpRecord _ _ => 1
  | OpRecordBatch count _ => Z.of_nat count
  | OpSnapshot => 0
  end.

(** The counters of a new service, after a series of operations. *)
Definition run_ops (ops : list StatsOp) : Stats.t :=
  foldl (λ st op, apply_op op st) (Stats.mk 0 0 0) ops.

Definition scans_added_by (ops : list StatsOp) : Z :=
  foldr (λ op n, scans_added op + n) 0 ops.

(** *** The service *)

Definition IsReady (s : NSFWService.t) : bool :=
  bool_decide (0 < length (GetLoadedModels (NSFWService.onnxService s)))%nat.

(** The loop over the loaded models that looks for [req.Model]. *)
Definition modelExists (s : NSFWService.t) (model : string) : bool :=
  existsb (λ modelName, String.eqb modelName model)
          (GetLoadedModels (NSFWService.onnxService s)).

(** The same loop in [DetectImage], which also wants the name to start with
    "nudenet". *)
Definition detectionModelExists (s : NSFWService.t) (model : string) : bool :=
  existsb (λ modelName, String.eqb modelName model
                        && HasPrefix (ToLower modelName) "nudenet")
          (GetLoadedModels (NSFWService.onnxService s)).

(** [s.config.MaxFileSizeMB*1024*1024] *)
Definition maxBytes (cfg : Config.t) : Z :=
  wrap64 (wrap64 (Config.MaxFileSizeMB cfg * 1024) * 1024).

Definition nonempty (s : string) : bool := negb (String.eqb s "").

Section WithEnv.
Context (E : Env).

(** [loadModels] of the NSFW service fills a map of its own, which no
    operation reads: the scans look models up in the ONNX service. *)
Definition loadModels (cfg : Config.t) : gmap string ModelInstance.t :=
  foldl (λ (models : gmap string ModelInstance.t) (entry : string * string),
           let modelPath := filepath_Join (Config.ModelDir cfg) entry.2 in
           if statOk E modelPath
           then <[entry.1 := ModelInstance.mk entry.1 modelPath]> models
           else models)
        ∅ modelFiles.

Definition NewNSFWService (cfg : Config.t) : NSFWService.t :=
  NSFWService.mk cfg (loadModels cfg) (NewONNXRuntimeService E cfg) (Stats.mk 0 0 0).

Definition get_service : St NSFWService.t := λ w, (service w, w).

Definition on_stats (f : Stats.t → Stats.t) : St unit :=
  λ w, let s := service w in
       (tt, mkWorld
              (NSFWService.mk (NSFWService.config s) (NSFWService.models s)
                 (NSFWService.onnxService s) (f (NSFWService.stats s)))
              (ticks w) (effects w)).

Definition base64ToBytes (cfg : Config.t) (base64Str : string) : St (Outcome ByteSlice) :=
  do emit (EffDecodeBase64 base64Str) in
  let text := default base64Str (after_comma base64Str) in
  match DecodeString text with
  | None => ret (Err ErrDecodeBase64)
  | Some data =>
      if maxBytes cfg <? Z.of_nat (len data)
      then ret (Err (ErrPayloadTooLarge (Config.MaxFileSizeMB cfg)))
      else ret (Ok data)
  end.

Definition urlToBytes (cfg : Config.t) (url : string) : St (Outcome ByteSlice) :=
  match httpGet E url with
  | HttpBadRequest => ret (Err ErrCreateRequest)
  | HttpNoResponse => do emit (EffHttpGet url) in ret (Err ErrDownload)
  | HttpResponse status contentLength body readOk =>
      do emit (EffHttpGet url) in
      if negb (status =? 200) then ret (Err (ErrDownloadStatus status))
      else if maxBytes cfg <? contentLength
      then ret (Err (ErrPayloadTooLarge (Config.MaxFileSizeMB cfg)))
      else if negb readOk then ret (Err ErrReadBody)
      else
        let data := ReadAll (take (Z.to_nat (wrap64 (maxBytes cfg + 1))) body) in
        if maxBytes cfg <? Z.of_nat (len data)
        then ret (Err (ErrPayloadTooLarge (Config.MaxFileSizeMB cfg)))
        else ret (Ok data)
  end.

Definition getImageData (cfg : Config.t) (base64Str urlStr : string) : St (Outcome ByteSlice) :=
  if nonempty base64Str then base64ToBytes cfg base64Str
  else if nonempty urlStr then urlToBytes cfg urlStr
  else ret (Err ErrMissingImageSource).

(** The body of [ScanImage], before its deferred call. *)
Definition ScanImage_body (ctx : Context) (req : ScanRequest.t) : St (Outcome ScanResponse.t) :=
  let* s := get_service in
  if negb (modelExists s (ScanRequest.Model req))
  then ret (Err (ErrModelNotFound (ScanRequest.Model req)))
  else
    let* got := getImageData (NSFWService.config s)
                  (ScanRequest.ImageBase64 req) (ScanRequest.ImageURL req) in
    match got with
    | Err e => ret (Err (ErrGetImageData e))
    | Panic => ret Panic
    | Ok imgData =>
        match slice_to imgData 512 with
        | None => ret Panic
        | Some head =>
            if negb (decodeConfigOk E (bytes head)) then ret (Err ErrInvalidImageFormat)
            else
              let* ran := RunInference E ctx (ScanRequest.Model req) imgData in
              match ran with
              | Err e => ret (Err (ErrInference e))
              | Panic => ret Panic
              | Ok response =>
                  do on_stats (updateStats (ScanResponse.ProcessingTimeMs response)
                                           (ScanResponse.IsNSFW response)) in
                  ret (Ok response)
              end
        end
    end.

(** [ScanImage]: the deferred call runs however the body ends. *)
Definition ScanImage (ctx : Context) (req : ScanRequest.t) : St (Outcome ScanResponse.t) :=
  let* startTime := now E in
  let* out := ScanImage_body ctx req in
  let* processingTime := since E startTime in
  do on_stats (updateStats processingTime false) in
  ret out.

(** One round of the loop of [ScanBatch]: the result of the item, or nothing
    when the item fails and the failure is logged. *)
Definition batchItem (ctx : Context) (model : string) (imgReq : BatchImageItem.t)
  : St (option BatchScanResult.t) :=
  let* imgStartTime := now E in
  let* s := get_service in
  let* got :=
    (if nonempty (BatchImageItem.ImageBase64 imgReq)
     then base64ToBytes (NSFWService.config s) (BatchImageItem.ImageBase64 imgReq)
     else if nonempty (BatchImageItem.ImageURL imgReq)
     then urlToBytes (NSFWService.config s) (BatchImageItem.ImageURL imgReq)
     else ret (Err ErrMissingImageSource)) in
  match got with
  | Ok imgData =>
      let* ran := RunInference E ctx model imgData in
      match ran with
      | Ok response =>
          let result :=
            BatchScanResult.mk (BatchImageItem.ID imgReq) (ScanResponse.NSFWScore response)
              (ScanResponse.IsNSFW response) (ScanResponse.ProcessingTimeMs response) in
          do on_stats (updateStats (BatchScanResult.ProcessingTimeMs result)
                                   (BatchScanResult.IsNSFW result)) in
          ret (Some result)
      | _ =>
          do emit (EffLogError "Failed to run inference for batch item"
                               (BatchImageItem.ID imgReq)) in
          ret None
      end
  | _ =>
      do emit (EffLogError "Failed to get image data for batch item"
                           (BatchImageItem.ID imgReq)) in
      ret None
  end.

Fixpoint batchLoop (ctx : Context) (model : string) (images : list BatchImageItem.t)
    (results : list BatchScanResult.t) : St (list BatchScanResult.t) :=
  match images with
  | [] => ret results
  | imgReq :: rest =>
      let* r := batchItem ctx model imgReq in
      batchLoop ctx model rest
        (match r with Some result => results ++ [result] | None => results end)
  end.

Definition ScanBatch_body (ctx : Context) (req : BatchScanRequest.t) (startTime : Z)
  : St (Outcome BatchScanResponse.t) :=
  let* s := get_service in
  if negb (modelExists s (BatchScanRequest.Model req))
  then ret (Err (ErrModelNotFound (BatchScanRequest.Model req)))
  else
    let* results := batchLoop ctx (BatchScanRequest.Model req) (BatchScanRequest.Images req) [] in
    let* totalProcessingTime := since E startTime in
    do on_stats (updateTotalScans (Z.of_nat (length results)) totalProcessingTime) in
    ret (Ok (BatchScanResponse.mk results)).

(** [ScanBatch]: its deferred call reads the clock and nothing else. *)
Definition ScanBatch (ctx : Context) (req : BatchScanRequest.t) : St (Outcome BatchScanResponse.t) :=
  let* startTime := now E in
  let* out := ScanBatch_body ctx req startTime in
  let* processingTime := since E startTime in
  ret out.

Definition DetectImage_body (ctx : Context) (req : ScanRequest.t) : St (Outcome ScanResponse.t) :=
  let* s := get_service in
  if negb (detectionModelExists s (ScanRequest.Model req))
  then ret (Err (ErrUnsupportedOperation (ScanRequest.Model req)))
  else
    let* got := getImageData (NSFWService.config s)
                  (ScanRequest.ImageBase64 req) (ScanRequest.ImageURL req) in
    match got with
    | Err e => ret (Err (ErrGetImageData e))
    | Panic => ret Panic
    | Ok imgData =>
        let* ran := RunInference E ctx (ScanRequest.Model req) imgData in
        match ran with
        | Err e => ret (Err (ErrInference e))
        | Panic => ret Panic
        | Ok response =>
            do on_stats (updateStats (ScanResponse.ProcessingTimeMs response)
                                     (ScanResponse.IsNSFW response)) in
            ret (Ok response)
        end
    end.

Definition DetectImage (ctx : Context) (req : ScanRequest.t) : St (Outcome ScanResponse.t) :=
  let* startTime := now E in
  let* out := DetectImage_body ctx req in
  let* processingTime := since E startTime in
  do on_stats (updateStats processingTime false) in
  ret out.

(** A service that has just been built. *)
Definition fresh (cfg : Config.t) : World := mkWorld (NewNSFWService cfg) 0 [].

End WithEnv.

Definition stats_of (w : World) : Stats.t := NSFWService.stats (service w).
Definition total_scans (w : World) : Z := Stats.TotalScans (NSFWService.stats (service w)).
Definition nsfw_detected (w : World) : Z := Stats.NSFWDetected (NSFWService.stats (service w)).

(** Whether the bucket of the service has a token at instant [t]. *)
Definition token_available (w : World) (t : Z) : bool :=
  (Rate.Allow (ONNXRuntimeService.limiter (NSFWService.onnxService (service w))) t).1.

(** The failures logged so far. *)
Definition is_log_error (e : Effect) : bool :=
  match e with EffLogError _ _ => true | _ => false end.
Definition failures (w : World) : nat := length (List.filter is_log_error (effects w)).

(** The image sources resolved so far: texts decoded and addresses fetched. *)
Definition is_acquisition (e : Effect) : bool :=
  match e with EffDecodeBase64 _ | EffHttpGet _ => true | _ => false end.
Definition acquisitions (w : World) : list Effect := List.filter is_acquisition (effects w).

End Services.

(* ===================================================================== *)
(** ** internal/handlers and cmd: readiness *)
(* ===================================================================== *)

Module Handlers.
Import Runtime.

(** The reply of a handler: status code and body. *)
Record Reply (A : Type) := mkReply { code : Z; body : A }.
Arguments mkReply {A} code body.
Arguments code {A} r.
Arguments body {A} r.

(** [type HealthHandler struct{}] *)
Inductive HealthHandler := mkHealthHandler.
Definition NewHealthHandler : HealthHandler := mkHealthHandler.

(** [Ready]: the handler has no service to look at. *)
Definition Ready (h : HealthHandler) : Reply ReadyResponse.t :=
  mkReply 200 (ReadyResponse.mk "ok").

Definition reports_ready (r : Reply ReadyResponse.t) : bool :=
  (code r =? 200) && String.eqb (ReadyResponse.Status (body r)) "ok".

(** The start of [main]: the service is built, and the process logs a fatal
    error and exits when the service is not ready; otherwise the routes,
    [/ready] among them, are served. *)
Inductive Startup :=
| Fatal (msg : string)
| Serving (s : NSFWService.t) (health : HealthHandler).

Definition main (E : Env) (cfg : Config.t) : Startup :=
  let nsfwService := Services.NewNSFWService E cfg in
  if negb (Services.IsReady nsfwService)
  then Fatal "Service is not ready - no models loaded"
  else Serving nsfwService NewHealthHandler.

End Handlers.

(* ===================================================================== *)
(** ** Scenarios *)
(* ===================================================================== *)

Module Scenarios.
Import Runtime Go Services.

(** The default settings of [LoadConfig]: threshold 0.7, files up to 10 MB,
    models under [/models]. *)
Definition default_config : Config.t :=
  Config.mk "8080" "" (q 7 10) 10 false "info" "/models".

(** A PNG image of one pixel, 68 bytes, and its base64 text. *)
Definition small_image : list Byte.byte :=
  [Byte.x89; Byte.x50; Byte.x4e; Byte.x47; Byte.x0d; Byte.x0a; Byte.x1a; Byte.x0a;
   Byte.x00; Byte.x00; Byte.x00; Byte.x0d; Byte.x49; Byte.x48; Byte.x44; Byte.x52;
   Byte.x00; Byte.x00; Byte.x00; Byte.x01; Byte.x00; Byte.x00; Byte.x00; Byte.x01;
   Byte.x08; Byte.x06; Byte.x00; Byte.x00; Byte.x00; Byte.x1f; Byte.x15; Byte.xc4;
   Byte.x89; Byte.x00; Byte.x00; Byte.x00; Byte.x0b; Byte.x49; Byte.x44; Byte.x41;
   Byte.x54; Byte.x78; Byte.x9c; Byte.x63; Byte.x60; Byte.x00; Byte.x02; Byte.x00;
   Byte.x00; Byte.x05; Byte.x00; Byte.x01; Byte.x7a; Byte.x5e; Byte.xab; Byte.x3f;
   Byte.x00; Byte.x00; Byte.x00; Byte.x00; Byte.x49; Byte.x45; Byte.x4e; Byte.x44;
   Byte.xae; Byte.x42; Byte.x60; Byte.x82].

Definition small_image_base64 : string :=
  "iVBORw0KGgoAAAANSUhEUgAAAAEAAAABCAYAAAAfFcSJAAAAC0lEQVR4nGNgAAIAAAUAAXpeqz8AAAAASUVORK5CYII=".

(** The image is served at one address; every other address answers 404. *)
Definition web (url : string) : HttpResult :=
  if String.eqb url "https://img.example/ok.png"
  then HttpResponse 200 68 small_image true
  else HttpResponse 404 0 [] true.

(** An image decoder that knows PNG by its signature. *)
Definition png_signature : list Byte.byte :=
  [Byte.x89; Byte.x50; Byte.x4e; Byte.x47; Byte.x0d; Byte.x0a; Byte.x1a; Byte.x0a].

Definition has_png_signature (payload : list Byte.byte) : bool :=
  if List.list_eq_dec Byte.byte_eq_dec (take 8 payload) png_signature then true else false.

(** The clock starts in 2026, in nanoseconds from the zero [time.Time], and
    is one millisecond later at each reading. *)
Definition start_2026 : Z := 63900000000 * 1000000000.
Definition ms_clock (n : nat) : Z := start_2026 + Z.of_nat n * 1000000.

(** All four model files are on disk, standard input holds no image. *)
Definition all_models : Env :=
  mkEnv ms_clock (λ _, true) web has_png_signature (λ _, false).

(** No model file is on disk. *)
Definition no_models : Env :=
  mkEnv ms_clock (λ _, false) web has_png_signature (λ _, false).

Definition scan_ok : ScanRequest.t :=
  ScanRequest.mk "mobilenetv2-7" "" "https://img.example/ok.png".
Definition scan_unknown_model : ScanRequest.t :=
  ScanRequest.mk "resnet" "" "https://img.example/ok.png".
Definition scan_short_inline : ScanRequest.t :=
  ScanRequest.mk "mobilenetv2-7" small_image_base64 "".
Definition detect_with_classifier : ScanRequest.t :=
  ScanRequest.mk "mobilenetv2-7" "" "https://img.example/ok.png".

(** Three items; the address of the second answers 404. *)
Definition batch_of_three : BatchScanRequest.t :=
  BatchScanRequest.mk "mobilenetv2-7"
    [BatchImageItem.mk "1" "" "https://img.example/ok.png";
     BatchImageItem.mk "2" "" "https://img.example/missing.png";
     BatchImageItem.mk "3" "" "https://img.example/ok.png"].

(** Twenty-one clients, one request each, a millisecond apart, before a
    limiter with the settings of [main]: 100 requests a minute, blocks of an
    hour. *)
Definition client (k : nat) : string := ("10.0.0." ++ pretty k)%string.
Definition crowd : list Middleware.Event :=
  map (λ k, Middleware.request_at (client k) (ms_clock k) Middleware.Allowed) (seq 1 21).

(** An inference for each of them. *)
Fixpoint inferences (n : nat) : St (list (Outcome ScanResponse.t)) :=
  match n with
  | O => ret []
  | S n' =>
      bind (RunInference all_models Background "mobilenetv2-7" (ReadAll small_image))
           (λ r, bind (inferences n') (λ rs, ret (r :: rs)))
  end.

Definition is_rate_limited (r : Outcome ScanResponse.t) : bool :=
  match r with Err ErrRateLimitExceeded => true | _ => false end.

End Scenarios.

(* ===================================================================== *)
(** ** More on runs of the rate limiter *)
(* ===================================================================== *)

Module MiddlewareRuns.
Import Middleware.

(** The requests of [ip] in a run, whatever the decision. *)
Fixpoint requests_of (ip : string) (tr : list Event) : nat :=
  match tr with
  | [] => 0%nat
  | ev :: tr' =>
      ((if decide (is_request_of ip ev) then 1 else 0) + requests_of ip tr')%nat
  end.

(** The event is not a refused request of [ip]. *)
Definition admits (ip : string) (ev : Event) : Prop :=
  match ev with
  | EvRequest ip' _ _ _ d => ip' = ip → d = Allowed
  | EvCleanup _ => True
  end.

(** The decision of the handler, read off the record it finds. *)
Definition decision_on (found : option Visitor) (limit window : Z) (t1 t2 : Z) : Admission :=
  match found with
  | Some v =>
      if bool_decide (t1 < BlockedUntil v) then Blocked
      else if bool_decide (limit ≤ Z.of_nat (length (prune (t2 - window) (Requests v))))
           then Blocked else Allowed
  | None => if bool_decide (limit ≤ 0) then Blocked else Allowed
  end.

(** No record holds more requests than the limit. *)
Definition bounded (r : RateLimitMiddleware) : Prop :=
  ∀ ip v, visitors r !! ip = Some v →
          Z.of_nat (length (Requests v)) ≤ Z.max 0 (limit r).

(** The requests of every record are in the order they came, none later
    than [now]. *)
Definition ordered (r : RateLimitMiddleware) (now : Z) : Prop :=
  ∀ ip v, visitors r !! ip = Some v →
          StronglySorted Z.le (Requests v) ∧ Forall (λ e, e ≤ now) (Requests v).

(** A client that has not used up its limit: no record, or a record that was
    never blocked and holds at most [n] requests. *)
Definition within_budget (ip : string) (n : nat) (r : RateLimitMiddleware) : Prop :=
  match visitors r !! ip with
  | None => True
  | Some v => BlockedUntil v = zeroTime ∧ (length (Requests v) ≤ n)%nat
  end.

(** The record of [ip] after steps that are not its own: the one before, or
    none when the one before was stale at a cleanup round not later than
    [hi]. *)
Definition kept_or_cleaned (ip : string) (hi : Z) (r r' : RateLimitMiddleware) : Prop :=
  visitors r' !! ip = visitors r !! ip
  ∨ (visitors r' !! ip = None
     ∧ ∃ v now, visitors r !! ip = Some v ∧ stale now v ∧ now ≤ hi).

(** Five clients behind a limiter of 2 requests a minute. *)
Definition mixed_run : list Event :=
  [request_at "198.51.100.1" (1 * second) Allowed;
   request_at "198.51.100.2" (2 * second) Allowed;
   request_at "198.51.100.1" (3 * second) Allowed;
   request_at "198.51.100.1" (4 * second) Blocked;
   EvCleanup (5 * second);
   request_at "198.51.100.3" (6 * second) Allowed;
   request_at "198.51.100.1" (7 * second) Blocked].
Definition mixed_limiter : RateLimitMiddleware := NewRateLimitMiddleware 2 minute hour.
Definition mixed_state : RateLimitMiddleware :=
  default mixed_limiter (replay mixed_limiter mixed_run).

(** The same run in three parts: the first four events, then a cleanup round
    and a request of a third client, then the last request. *)
Definition mixed_before : RateLimitMiddleware :=
  default mixed_limiter (replay mixed_limiter (take 4 mixed_run)).
Definition mixed_between : list Event := take 2 (drop 4 mixed_run).
Definition mixed_after : RateLimitMiddleware :=
  default mixed_limiter (replay mixed_limiter (take 6 mixed_run)).

End MiddlewareRuns.

(* ===================================================================== *)
(** ** internal/middleware/auth.go *)
(* ===================================================================== *)

Module Auth.

(** What the middleware does with a request: [c.Next()], or HTTP 401 with a
    message and [c.Abort()]. *)
Inductive AuthResult :=
| Next
| Unauthorized (message : string).

(** [AuthRequired], on the path of the request and its [X-API-KEY] header
    (empty when the header is absent). *)
Definition AuthRequired (cfg : Config.t) (path apiKey : string) : AuthResult :=
  if (String.eqb path "/health" || String.eqb path "/metrics")%bool then Next
  else if String.eqb apiKey "" then Unauthorized "API key is required"
  else if negb (String.eqb apiKey (Config.APIKey cfg)) then Unauthorized "Invalid API key"
  else Next.

End Auth.

(* ===================================================================== *)
(** ** internal/config/config.go *)
(* ===================================================================== *)

Module ConfigLoad.

(** [os.Getenv]: the value of the variable, empty when it is not set. *)
Definition Getenv (env : gmap string string) (key : string) : string :=
  default "" (env !! key).

Definition getEnvOrDefault (env : gmap string string) (key defaultValue : string) : string :=
  let value := Getenv env key in
  if negb (String.eqb value "") then value else defaultValue.

(** [strconv.ParseBool] *)
Definition ParseBool (str : string) : option bool :=
  if existsb (String.eqb str) ["1"; "t"; "T"; "TRUE"; "true"; "True"] then Some true
  else if existsb (String.eqb str) ["0"; "f"; "F"; "FALSE"; "false"; "False"] then Some false
  else None.

(** [strconv.ParseInt(s, 10, 64)]: an optional sign, then decimal digits, at
    least one; an error outside [int64]. *)
Definition digit (c : ascii) : option Z :=
  let n := N_of_ascii c in
  if ((48 <=? n) && (n <=? 57))%N then Some (Z.of_N n - 48) else None.

Fixpoint digits (s : string) (acc : Z) : option Z :=
  match s with
  | EmptyString => Some acc
  | String c s' =>
      match digit c with
      | Some d => digits s' (10 * acc + d)
      | None => None
      end
  end.

Definition unsigned (s : string) : option Z :=
  match s with
  | EmptyString => None
  | _ => digits s 0
  end.

Definition ParseInt (s : string) : option Z :=
  let magnitude :=
    match s with
    | String "+" rest => unsigned rest
    | String "-" rest => Z.opp <$> unsigned rest
    | _ => unsigned s
    end in
  match magnitude with
  | Some n => if ((Go.minInt64 <=? n) && (n <=? Go.maxInt64))%bool then Some n else None
  | None => None
  end.

(** The errors of [LoadConfig]. *)
Inductive ConfigError :=
| InvalidThreshold     (* invalid NSFW threshold: ... *)
| InvalidMaxFileSize   (* invalid max file size: ... *)
| InvalidEnableGPU.    (* invalid enable GPU value: ... *)

Section WithParseFloat.
(** [strconv.ParseFloat(s, 64)], which this development does not model. *)
Context (ParseFloat : string → option score).

(** [LoadConfig], on the environment as it is once the [.env] file, if any,
    has been loaded into it. *)
Definition LoadConfig (env : gmap string string) : ConfigError + Config.t :=
  let port := getEnvOrDefault env "PORT" "8080" in
  let apiKey := getEnvOrDefault env "API_KEY" "" in
  let nsfwThresholdStr := getEnvOrDefault env "NSFW_THRESHOLD" "0.7" in
  let maxFileSizeStr := getEnvOrDefault env "MAX_FILE_SIZE_MB" "10" in
  let enableGPUStr := getEnvOrDefault env "ENABLE_GPU" "false" in
  let logLevel := getEnvOrDefault env "LOG_LEVEL" "info" in
  let modelDir := getEnvOrDefault env "MODEL_DIR" "/models" in
  match ParseFloat nsfwThresholdStr with
  | None => inl InvalidThreshold
  | Some nsfwThreshold =>
      match ParseInt maxFileSizeStr with
      | None => inl InvalidMaxFileSize
      | Some maxFileSize =>
          match ParseBool enableGPUStr with
          | None => inl InvalidEnableGPU
          | Some enableGPU =>
              inr (Config.mk port apiKey nsfwThreshold maxFileSize enableGPU logLevel modelDir)
          end
      end
  end.

End WithParseFloat.

(** A parser of decimal fractions that knows the default threshold. *)
Definition parse_tenths (s : string) : option score :=
  if String.eqb s "0.7" then Some (QArith_base.Qmake 7 10)
  else if String.eqb s "0.5" then Some (QArith_base.Qmake 5 10)
  else None.

(** An environment that sets the port and the model directory, and leaves
    the key empty. *)
Definition sample_env : gmap string string :=
  {[ "PORT" := "9000"; "MODEL_DIR" := "/srv/models"; "API_KEY" := "" ]}.

End ConfigLoad.

(* ===================================================================== *)
(** ** encoding/base64, [StdEncoding.EncodeToString] *)
(* ===================================================================== *)

Module Base64Enc.
Import Go.

(** The character of a six-bit value in the standard alphabet. *)
Definition b64_char (v : N) : ascii :=
  if (v <? 26)%N then ascii_of_N (v + 65)
  else if (v <? 52)%N then ascii_of_N (v + 71)
  else if (v <? 62)%N then ascii_of_N (v - 4)
  else if (v =? 62)%N then "+"%char
  else "/"%char.

(** Three bytes give four characters; one or two bytes at the end give two
    or three characters and padding. *)
Fixpoint encode (bs : list Byte.byte) : list ascii :=
  match bs with
  | [] => []
  | a :: b :: c :: rest =>
      let na := Byte.to_N a in
      let nb := Byte.to_N b in
      let nc := Byte.to_N c in
      b64_char (na / 4) :: b64_char ((na mod 4) * 16 + nb / 16)
        :: b64_char ((nb mod 16) * 4 + nc / 64) :: b64_char (nc mod 64) :: encode rest
  | [a; b] =>
      let na := Byte.to_N a in
      let nb := Byte.to_N b in
      [b64_char (na / 4); b64_char ((na mod 4) * 16 + nb / 16);
       b64_char ((nb mod 16) * 4); "="%char]
  | [a] =>
      let na := Byte.to_N a in
      [b64_char (na / 4); b64_char ((na mod 4) * 16); "="%char; "="%char]
  end%N.

Definition EncodeToString (bs : list Byte.byte) : string :=
  string_of_list_ascii (encode bs).

(** A character that is neither a line break nor a comma: the decoder keeps
    it, and the search for a data URI prefix passes over it. *)
Definition plain (c : ascii) : Prop :=
  is_newline c = false ∧ Ascii.eqb c "," = false.

End Base64Enc.

(* ===================================================================== *)
(** ** The multipart upload *)
(* ===================================================================== *)

Module Multipart.
Import Base64Enc.

(** The request [ScanMultipart] hands to [ScanImage]: the model of the form
    and the bytes of the file in base64, with no address. *)
Definition scan_request (model : string) (fileBytes : list Byte.byte) : ScanRequest.t :=
  ScanRequest.mk model (EncodeToString fileBytes) "".

End Multipart.

(* ===================================================================== *)
(** ** More scenarios *)
(* ===================================================================== *)

Module MoreScenarios.
Import Runtime Go Services Scenarios.

(** Settings with a file size of 0 MB, and of -1 MB. *)
Definition zero_ceiling : Config.t :=
  Config.mk "8080" "" (q 7 10) 0 false "info" "/models".
Definition negative_ceiling : Config.t :=
  Config.mk "8080" "" (q 7 10) (-1) false "info" "/models".

(** The one-pixel image as a data URI. *)
Definition small_image_data_uri : string :=
  ("data:image/png;base64" ++ "," ++ small_image_base64)%string.

(** The bucket of the service. *)
Definition limiter_of (w : World) : Rate.Limiter :=
  ONNXRuntimeService.limiter (NSFWService.onnxService (service w)).

(** What a service is built with: its settings and its two maps of models. *)
Definition fixed_part (w : World)
  : Config.t * gmap string ModelInstance.t * Config.t * gmap string ONNXModel.t :=
  (NSFWService.config (service w), NSFWService.models (service w),
   ONNXRuntimeService.config (NSFWService.onnxService (service w)),
   ONNXRuntimeService.models (NSFWService.onnxService (service w))).

(** A context that is done from the start. *)
Definition cancelled : Context := λ _, true.

(** Only the two classifiers are on disk. *)
Definition classifiers_only : Env :=
  mkEnv ms_clock
    (λ path, String.eqb path "/models/mobilenetv2-7.onnx"
             || String.eqb path "/models/nsfw_squeezenet.onnx")
    web has_png_signature (λ _, false).

Definition scan_url_unknown_model : ScanRequest.t :=
  ScanRequest.mk "NudeNet-320n" "" "https://img.example/ok.png".

End MoreScenarios.

(* ===================================================================== *)
(** * Properties *)
(* ===================================================================== *)

Ltac frame_done :=
  rewrite ?List.filter_app, ?length_app; simpl; repeat split; (done || lia).

(** ** The rate limiter *)

Section RateLimitFacts.
Import Middleware.

Implicit Types (r : RateLimitMiddleware) (ip : string) (tr : list Event).

Lemma blocked_at_until ip r t : blocked_at ip r t → t < blocked_until ip r.
Proof. intros (v & Hv & Ht). unfold blocked_until. by rewrite Hv. Qed.

Lemma not_blocked_at ip r t : 0 ≤ t → blocked_until ip r ≤ t → ¬ blocked_at ip r t.
Proof. intros H0 Hle Hb%blocked_at_until. lia. Qed.

(** The three ways through the handler. *)
Lemma RateLimit_blocked_early r ip t1 t2 t3 :
  blocked_at ip r t1 → RateLimit r ip t1 t2 t3 = (r, Blocked).
Proof.
  intros (v & Hv & Hb). unfold RateLimit. rewrite Hv.
  by rewrite bool_decide_eq_true_2.
Qed.

Lemma RateLimit_over_limit r ip t1 t2 t3 :
  ¬ blocked_at ip r t1 →
  limit r ≤ Z.of_nat (recent ip (t2 - window r) r) →
  RateLimit r ip t1 t2 t3 =
    (set_visitors r (<[ip := mkVisitor (prune (t2 - window r) (Requests (entry_of r ip)))
                                        (t3 + blockWindow r)]> (visitors r)),
     Blocked).
Proof.
  unfold RateLimit, blocked_at, recent, entry_of.
  destruct (visitors r !! ip) as [v|] eqn:Hv; simpl; intros Hb Hl.
  - rewrite bool_decide_eq_false_2 by (intros ?; apply Hb; eauto).
    by rewrite bool_decide_eq_true_2.
  - by rewrite bool_decide_eq_true_2.
Qed.

Lemma RateLimit_under_limit r ip t1 t2 t3 :
  ¬ blocked_at ip r t1 →
  Z.of_nat (recent ip (t2 - window r) r) < limit r →
  RateLimit r ip t1 t2 t3 =
    (set_visitors r (<[ip := mkVisitor (prune (t2 - window r) (Requests (entry_of r ip)) ++ [t2])
                                        (BlockedUntil (entry_of r ip))]> (visitors r)),
     Allowed).
Proof.
  unfold RateLimit, blocked_at, recent, entry_of.
  destruct (visitors r !! ip) as [v|] eqn:Hv; simpl; intros Hb Hl.
  - rewrite bool_decide_eq_false_2 by (intros ?; apply Hb; eauto).
    rewrite bool_decide_eq_false_2; [done | lia].
  - rewrite bool_decide_eq_false_2; [done | lia].
Qed.

(** Every call takes one of the three ways. *)
Lemma RateLimit_cases r ip t1 t2 t3 r' d :
  RateLimit r ip t1 t2 t3 = (r', d) →
  (blocked_at ip r t1 ∧ r' = r ∧ d = Blocked)
  ∨ (¬ blocked_at ip r t1
     ∧ limit r ≤ Z.of_nat (recent ip (t2 - window r) r)
     ∧ r' = set_visitors r
              (<[ip := mkVisitor (prune (t2 - window r) (Requests (entry_of r ip)))
                                 (t3 + blockWindow r)]> (visitors r))
     ∧ d = Blocked)
  ∨ (¬ blocked_at ip r t1
     ∧ Z.of_nat (recent ip (t2 - window r) r) < limit r
     ∧ r' = set_visitors r
              (<[ip := mkVisitor (prune (t2 - window r) (Requests (entry_of r ip)) ++ [t2])
                                 (BlockedUntil (entry_of r ip))]> (visitors r))
     ∧ d = Allowed).
Proof.
  intros H.
  destruct (decide (blocked_at ip r t1)) as [Hb|Hb].
  - left. rewrite RateLimit_blocked_early in H by done. by simplify_eq.
  - right.
    destruct (decide (limit r ≤ Z.of_nat (recent ip (t2 - window r) r))) as [Hl|Hl].
    + left. rewrite RateLimit_over_limit in H by done. by simplify_eq.
    + right. rewrite RateLimit_under_limit in H by (done || lia). simplify_eq.
      repeat split; (done || lia).
Qed.

(** No step changes the settings. *)
Lemma step_settings r ev r' :
  step r ev r' →
  limit r' = limit r ∧ window r' = window r ∧ blockWindow r' = blockWindow r.
Proof.
  destruct ev as [ip t1 t2 t3 d | now]; simpl.
  - intros H. apply RateLimit_cases in H.
    destruct H as [(_ & -> & _) | [(_ & _ & -> & _) | (_ & _ & -> & _)]]; done.
  - intros ->. done.
Qed.

Lemma exec_settings r tr r' :
  exec r tr r' →
  limit r' = limit r ∧ window r' = window r ∧ blockWindow r' = blockWindow r.
Proof.
  induction 1 as [|r ev r1 tr r2 Hs _ IH]; [done|].
  apply step_settings in Hs. destruct Hs as (-> & -> & ->) in IH. done.
Qed.

(** The cleanup round, seen from one client. *)
Lemma cleanup_lookup r now ip :
  visitors (cleanupOldEntries r now) !! ip =
    match visitors r !! ip with
    | Some v => if decide (stale now v) then None else Some v
    | None => None
    end.
Proof.
  unfold cleanupOldEntries. simpl.
  destruct (visitors r !! ip) as [v|] eqn:Hv.
  - destruct (decide (stale now v)) as [Hs|Hs].
    + apply map_lookup_filter_None. right. intros v' Hv'. simplify_eq. simpl. tauto.
    + apply map_lookup_filter_Some. done.
  - apply map_lookup_filter_None. by left.
Qed.

(** A step that is not a request of [ip] leaves the record of [ip] as it is,
    or removes it when it is stale. *)
Lemma step_other r ev r' ip :
  step r ev r' → ¬ is_request_of ip ev →
  visitors r' !! ip = visitors r !! ip
  ∨ (visitors r' !! ip = None ∧ ∃ v now, visitors r !! ip = Some v ∧ stale now v).
Proof.
  destruct ev as [ip' t1 t2 t3 d | now]; simpl; intros Hs Hne.
  - left. apply RateLimit_cases in Hs.
    destruct Hs as [(_ & -> & _) | [(_ & _ & -> & _) | (_ & _ & -> & _)]];
      [done | simpl; by rewrite lookup_insert_ne ..].
  - subst r'. rewrite cleanup_lookup.
    destruct (visitors r !! ip) as [v|]; [|by left].
    destruct (decide (stale now v)); [right; eauto | by left].
Qed.

(** Pruning. *)
Lemma prune_prune c1 c2 (l : list Z) : c1 ≤ c2 → prune c2 (prune c1 l) = prune c2 l.
Proof.
  intros Hc. unfold prune. induction l as [|x l IH]; [done|].
  rewrite !filter_cons. repeat case_decide; rewrite ?filter_cons; repeat case_decide;
    try lia; by rewrite IH.
Qed.

Lemma prune_snoc c (l : list Z) t :
  prune c (l ++ [t]) = prune c l ++ (if decide (c < t) then [t] else []).
Proof. unfold prune. rewrite filter_app. f_equal. Qed.

Lemma prune_all_old c (l : list Z) : Forall (λ t, t ≤ c) l → prune c l = [].
Proof.
  unfold prune. induction 1 as [|x l Hx _ IH]; [done|].
  rewrite filter_cons. case_decide; [lia | done].
Qed.

Lemma prune_Forall c (l : list Z) (P : Z → Prop) : Forall P l → Forall P (prune c l).
Proof.
  rewrite !Forall_forall. intros H x Hx. apply H.
  unfold prune in Hx. apply list_elem_of_filter in Hx. tauto.
Qed.

(** Requests on record after [cutoff] stay on record as long as every call
    prunes at or before [cutoff], and each admitted request adds one. *)
Lemma recent_step r ev r' ip c :
  step r ev r' →
  (∀ ip' t1 t2 t3 d, ev = EvRequest ip' t1 t2 t3 d → t2 - window r ≤ c) →
  (recent ip c r + admitted_since ip c [ev] ≤ recent ip c r')%nat.
Proof.
  intros Hs Hc.
  destruct (decide (is_request_of ip ev)) as [Hip|Hip].
  - destruct ev as [ip' t1 t2 t3 d | now]; [|done]. simpl in Hip. subst ip'.
    specialize (Hc _ _ _ _ _ eq_refl). simpl in Hs. apply RateLimit_cases in Hs.
    destruct Hs as [(_ & -> & ->) | [(_ & _ & -> & ->) | (_ & _ & -> & ->)]]; simpl.
    + lia.
    + unfold recent at 2. simpl. rewrite lookup_insert_eq. simpl.
      rewrite prune_prune by done. unfold recent, entry_of.
      destruct (visitors r !! ip); simpl; lia.
    + unfold recent at 2. simpl. rewrite lookup_insert_eq. simpl.
      rewrite prune_snoc, prune_prune, length_app by done.
      unfold recent, entry_of.
      case_bool_decide as Hh; case_decide; destruct (visitors r !! ip); simpl;
        try lia; destruct Hh; (done || lia || tauto).
  - assert (admitted_since ip c [ev] = 0%nat) as ->.
    { destruct ev as [ip' t1 t2 t3 [] | now]; simpl; [|done..].
      simpl in Hip. rewrite bool_decide_eq_false_2; [done | tauto]. }
    destruct (step_other _ _ _ ip Hs Hip) as [He | (He & v & now & Hv & Hst & _)];
      unfold recent; rewrite He; [lia|].
    rewrite Hv. apply nil_length_inv in Hst. rewrite Hst. simpl. lia.
Qed.

Lemma admitted_since_cons ip c ev tr :
  admitted_since ip c (ev :: tr) = (admitted_since ip c [ev] + admitted_since ip c tr)%nat.
Proof. destruct ev as [? ? ? ? []|]; simpl; lia. Qed.

Lemma admitted_since_app ip c tr1 tr2 :
  admitted_since ip c (tr1 ++ tr2) = (admitted_since ip c tr1 + admitted_since ip c tr2)%nat.
Proof.
  induction tr1 as [|ev tr1 IH]; [done|]. simpl app.
  rewrite (admitted_since_cons _ _ ev (tr1 ++ tr2)), (admitted_since_cons _ _ ev tr1). lia.
Qed.

(** The clock. *)
Lemma chrono_le lo tr hi : chrono lo tr hi → lo ≤ hi.
Proof.
  revert lo. induction tr as [|[ip t1 t2 t3 d|now] tr IH]; simpl; intros lo.
  - done.
  - intros (? & ? & ? & H%IH). lia.
  - intros (? & H%IH). lia.
Qed.

Lemma chrono_weaken lo lo' tr hi : lo' ≤ lo → chrono lo tr hi → chrono lo' tr hi.
Proof. destruct tr as [|[ip t1 t2 t3 d|now] tr]; simpl; intros; intuition lia. Qed.

Lemma chrono_app lo tr1 tr2 hi :
  chrono lo (tr1 ++ tr2) hi ↔ ∃ mid, chrono lo tr1 mid ∧ chrono mid tr2 hi.
Proof.
  revert lo. induction tr1 as [|[ip t1 t2 t3 d|now] tr1 IH]; simpl; intros lo.
  - split.
    + intros H. exists lo. split; [lia | done].
    + intros (mid & ? & ?). by apply (chrono_weaken mid).
  - rewrite IH. split.
    + intros (? & ? & ? & mid & ? & ?). exists mid. tauto.
    + intros (mid & (? & ? & ? & ?) & ?). repeat split; eauto.
  - rewrite IH. split.
    + intros (? & mid & ? & ?). exists mid. tauto.
    + intros (mid & (? & ?) & ?). repeat split; eauto.
Qed.

Lemma chrono_request_bounds lo tr hi ip t1 t2 t3 d :
  chrono lo tr hi → EvRequest ip t1 t2 t3 d ∈ tr →
  lo ≤ t1 ∧ t1 ≤ t2 ∧ t2 ≤ t3 ∧ t3 ≤ hi.
Proof.
  revert lo. induction tr as [|ev tr IH]; intros lo Hc Hin; [by apply elem_of_nil in Hin|].
  apply elem_of_cons in Hin. destruct Hin as [<- | Hin].
  - simpl in Hc. destruct Hc as (? & ? & ? & Hc%chrono_le). lia.
  - destruct ev as [ip' u1 u2 u3 d'|now]; simpl in Hc.
    + destruct Hc as (? & ? & ? & Hc). specialize (IH _ Hc Hin). lia.
    + destruct Hc as (? & Hc). specialize (IH _ Hc Hin). lia.
Qed.

Lemma recent_exec r tr r' ip c lo hi :
  exec r tr r' → chrono lo tr hi → hi - window r ≤ c →
  (recent ip c r + admitted_since ip c tr ≤ recent ip c r')%nat.
Proof.
  intros He. revert lo. induction He as [|r ev r1 tr r2 Hs He IH]; intros lo Hc Hw.
  - simpl. lia.
  - rewrite admitted_since_cons.
    assert (window r1 = window r) as Hwin by (by apply step_settings in Hs as (_ & -> & _)).
    assert (∃ mid, chrono mid tr hi ∧
              ∀ ip' t1 t2 t3 d, ev = EvRequest ip' t1 t2 t3 d → t2 ≤ mid) as (mid & Hmid & Hev).
    { destruct ev as [ip' t1 t2 t3 d|now]; simpl in Hc.
      - exists t3. split; [tauto|]. intros; simplify_eq. lia.
      - exists now. split; [tauto|]. intros; simplify_eq. }
    pose proof (chrono_le _ _ _ Hmid).
    assert (recent ip c r + admitted_since ip c [ev] ≤ recent ip c r1)%nat.
    { apply recent_step; [done|]. intros ip' t1 t2 t3 d ->.
      specialize (Hev _ _ _ _ _ eq_refl). lia. }
    specialize (IH mid Hmid). rewrite Hwin in IH. specialize (IH Hw). lia.
Qed.

Lemma exec_app r tr1 tr2 r' :
  exec r (tr1 ++ tr2) r' ↔ ∃ rm, exec r tr1 rm ∧ exec rm tr2 r'.
Proof.
  revert r. induction tr1 as [|ev tr1 IH]; intros r; simpl.
  - split.
    + intros H. exists r. split; [constructor | done].
    + intros (rm & H1 & H2). by inversion H1; subst.
  - split.
    + intros H. inversion H as [|? ? r1 ? ? Hs He]; subst.
      apply IH in He as (rm & ? & ?). exists rm. split; [by econstructor | done].
    + intros (rm & H1 & H2). inversion H1 as [|? ? r1 ? ? Hs He]; subst.
      econstructor; [done|]. apply IH. eauto.
Qed.

(** After an admitted request the client is not under a block. *)
Lemma blocked_until_after_allowed r ip t1 t2 t3 r' :
  RateLimit r ip t1 t2 t3 = (r', Allowed) → 0 ≤ t1 → blocked_until ip r' ≤ t1.
Proof.
  intros H Ht. apply RateLimit_cases in H.
  destruct H as [(_ & _ & ?) | [(_ & _ & _ & ?) | (Hb & _ & -> & _)]]; [done..|].
  unfold blocked_until, entry_of. simpl. rewrite lookup_insert_eq. simpl.
  destruct (visitors r !! ip) as [v|] eqn:Hv; simpl; [|done].
  destruct (decide (t1 < BlockedUntil v)); [|lia].
  destruct Hb. by exists v.
Qed.

(** Steps that are not requests of [ip] never extend the block of [ip]. *)
Lemma blocked_until_quiet r tr r' ip x :
  exec r tr r' → Forall (λ ev, ¬ is_request_of ip ev) tr →
  0 ≤ x → blocked_until ip r ≤ x → blocked_until ip r' ≤ x.
Proof.
  intros He Hq Hx. induction He as [|r ev r1 tr r2 Hs He IH]; [done|].
  apply Forall_cons in Hq as [Hev Hq]. intros Hb. apply IH; [done|].
  destruct (step_other _ _ _ ip Hs Hev) as [Heq | (Heq & _)];
    unfold blocked_until in *; rewrite Heq; done.
Qed.

(** A block set until [B] holds against everything that happens before [B]:
    requests of the client, requests of others, cleanup rounds. *)
Lemma block_persists ip B tr :
  ∀ r r' lo hi v,
    exec r tr r' → chrono lo tr hi →
    visitors r !! ip = Some v → BlockedUntil v = B →
    ∀ t1 t2 t3 d, EvRequest ip t1 t2 t3 d ∈ tr → t1 < B → d = Blocked.
Proof.
  induction tr as [|ev tr IH]; intros r r' lo hi v He Hc Hv HB t1 t2 t3 d Hin Ht.
  { by apply elem_of_nil in Hin. }
  inversion He as [|? ? r1 ? ? Hs He']; subst.
  apply elem_of_cons in Hin. destruct Hin as [<- | Hin].
  - simpl in Hs. rewrite RateLimit_blocked_early in Hs by (by exists v). by simplify_eq.
  - destruct ev as [ip' u1 u2 u3 d'|now]; simpl in Hc, Hs.
    + destruct Hc as (? & ? & ? & Hc).
      pose proof (chrono_request_bounds _ _ _ _ _ _ _ _ Hc Hin).
      destruct (decide (ip' = ip)) as [->|Hne].
      * rewrite RateLimit_blocked_early in Hs by (exists v; split; [done | lia]).
        simplify_eq. eauto.
      * assert (visitors r1 !! ip = Some v) as Hv1.
        { apply RateLimit_cases in Hs.
          destruct Hs as [(_ & -> & _) | [(_ & _ & -> & _) | (_ & _ & -> & _)]]; simpl;
            rewrite ?lookup_insert_ne by done; done. }
        exact (IH r1 r' _ _ v He' Hc Hv1 eq_refl _ _ _ _ Hin Ht).
    + destruct Hc as (? & Hc).
      pose proof (chrono_request_bounds _ _ _ _ _ _ _ _ Hc Hin).
      assert (visitors r1 !! ip = Some v) as Hv1.
      { rewrite Hs, cleanup_lookup, Hv. rewrite decide_False; [done|].
        intros (_ & Hst). apply Hst. lia. }
      exact (IH r1 r' _ _ v He' Hc Hv1 eq_refl _ _ _ _ Hin Ht).
Qed.

(** C5. Once a client has had [limit] requests admitted within [window], its
    next request in that window is refused, and so is every request it makes
    before [blockWindow] has passed since the refusal, whatever else happens
    to the limiter meanwhile (requests of any client, cleanup rounds). *)
Theorem limit_reached_blocks r0 tr_a ip a1 a2 a3 tr_b r1 T1 T2 T3 :
  let tr := tr_a ++ EvRequest ip a1 a2 a3 Allowed :: tr_b in
  exec r0 tr r1 →
  chrono 0 tr T1 → T1 ≤ T2 → T2 ≤ T3 →
  Forall (λ ev, ¬ is_request_of ip ev) tr_b →
  limit r0 ≤ Z.of_nat (admitted_since ip (T2 - window r0) tr) →
  ∃ r2,
    RateLimit r1 ip T1 T2 T3 = (r2, Blocked)
    ∧ ∀ tr' r3 hi,
        exec r2 tr' r3 → chrono T3 tr' hi →
        ∀ t1 t2 t3 d,
          EvRequest ip t1 t2 t3 d ∈ tr' → t1 < T3 + blockWindow r0 → d = Blocked.
Proof.
  intros tr He Hc H12 H23 Hquiet Hlim.
  destruct (exec_settings _ _ _ He) as (Hl & Hw & Hbw).
  (* the client is not under a block when the request arrives *)
  assert (¬ blocked_at ip r1 T1) as Hnb.
  { subst tr. apply exec_app in He as (ra & Ha & He).
    inversion He as [|? ? rb ? ? Hs Hb]; subst. simpl in Hs.
    apply chrono_app in Hc as (mid & Hca & Hcb). simpl in Hcb.
    destruct Hcb as (? & ? & ? & Hcb). apply chrono_le in Hca, Hcb.
    apply not_blocked_at; [lia|].
    apply Z.le_trans with a1; [|lia].
    apply (blocked_until_quiet rb tr_b); [done | done | lia |].
    eapply blocked_until_after_allowed; [done | lia]. }
  (* the admitted requests are still on record *)
  assert (limit r1 ≤ Z.of_nat (recent ip (T2 - window r1) r1)) as Hrec.
  { rewrite Hl, Hw.
    pose proof (recent_exec r0 tr r1 ip (T2 - window r0) 0 T1 He Hc). lia. }
  eexists. split; [by apply RateLimit_over_limit|].
  intros tr' r3 hi He' Hc' t1 t2 t3 d Hin Ht.
  rewrite <- Hbw in Ht.
  eapply (block_persists ip (T3 + blockWindow r1) tr') with
    (v := mkVisitor (prune (T2 - window r1) (Requests (entry_of r1 ip))) (T3 + blockWindow r1));
    [exact He' | exact Hc' | simpl; apply lookup_insert_eq | reflexivity | exact Hin | exact Ht].
Qed.

(** The invariant of a run from the empty map. *)
Lemma timely_mono D lo hi v : lo ≤ hi → timely D lo v → timely D hi v.
Proof.
  intros Hle (H1 & H2). split.
  - eapply Forall_impl; [exact H1|]. simpl. intros; lia.
  - intros Hb. apply H2. lia.
Qed.

Lemma inv_mono r lo hi : lo ≤ hi → inv r lo → inv r hi.
Proof. intros Hle Hi ip v Hv. eapply timely_mono; [done|]. by eapply Hi. Qed.

Lemma inv_new l w b now : inv (NewRateLimitMiddleware l w b) now.
Proof. intros ip v Hv. simpl in Hv. by rewrite lookup_empty in Hv. Qed.

Lemma entry_of_timely r ip now : inv r now → Forall (λ e, e ≤ now) (Requests (entry_of r ip)).
Proof.
  intros Hi. unfold entry_of. destruct (visitors r !! ip) as [v|] eqn:Hv; simpl.
  - by apply (Hi ip v).
  - constructor.
Qed.

Lemma inv_step r ev r' lo hi :
  0 ≤ lo → inv r lo → step r ev r' → chrono lo [ev] hi → inv r' hi.
Proof.
  intros H0 Hi Hs Hc.
  destruct ev as [ip t1 t2 t3 d|now]; simpl in Hs, Hc.
  - destruct Hc as (? & ? & ? & ?).
    pose proof (entry_of_timely r ip lo Hi) as Hent.
    apply RateLimit_cases in Hs.
    destruct Hs as [(_ & -> & _) | [(_ & _ & -> & _) | (Hnb & _ & -> & _)]].
    + apply (inv_mono _ lo); [lia | done].
    + intros ip' v'. simpl. destruct (decide (ip = ip')) as [<-|Hne].
      * rewrite lookup_insert_eq. intros [= <-]. split; simpl.
        -- apply prune_Forall. eapply Forall_impl; [exact Hent|]. simpl. intros; lia.
        -- intros _. apply prune_Forall. eapply Forall_impl; [exact Hent|]. simpl. intros; lia.
      * rewrite lookup_insert_ne by done. intros Hv'.
        eapply timely_mono; [|by apply (Hi ip' v')]. lia.
    + intros ip' v'. simpl. destruct (decide (ip = ip')) as [<-|Hne].
      * rewrite lookup_insert_eq. intros [= <-]. split; simpl.
        -- apply Forall_app. split.
           ++ apply prune_Forall. eapply Forall_impl; [exact Hent|]. simpl. intros; lia.
           ++ repeat constructor. lia.
        -- intros Hb. exfalso. unfold entry_of in Hb.
           destruct (visitors r !! ip) as [v|] eqn:Hv; simpl in Hb.
           ++ apply Hnb. exists v. split; [done | lia].
           ++ unfold zeroTime in Hb. lia.
      * rewrite lookup_insert_ne by done. intros Hv'.
        eapply timely_mono; [|by apply (Hi ip' v')]. lia.
  - destruct Hc as (? & ?). subst r'. intros ip v. rewrite cleanup_lookup.
    destruct (visitors r !! ip) as [v0|] eqn:Hv0; [|done].
    case_decide; [done|]. intros [= <-].
    eapply timely_mono; [|by apply (Hi ip v0)]. lia.
Qed.

Lemma inv_exec r tr r' lo hi :
  0 ≤ lo → inv r lo → exec r tr r' → chrono lo tr hi → inv r' hi.
Proof.
  intros H0 Hi He. revert lo H0 Hi. induction He as [|r ev r1 tr r2 Hs He IH]; intros lo H0 Hi Hc.
  - simpl in Hc. by apply (inv_mono _ lo).
  - assert (∃ mid, lo ≤ mid ∧ chrono lo [ev] mid ∧ chrono mid tr hi) as (mid & ? & ? & ?).
    { destruct ev as [ip t1 t2 t3 d|now]; simpl in Hc |- *.
      - exists t3. repeat split; (tauto || lia).
      - exists now. repeat split; (tauto || lia). }
    apply (IH mid); [lia | | done]. by eapply inv_step.
Qed.

Lemma before_block_quiet r tr r' ip :
  exec r tr r' → Forall (λ ev, ¬ is_request_of ip ev) tr →
  before_block ip r → before_block ip r'.
Proof.
  intros He Hq. induction He as [|r ev r1 tr r2 Hs He IH]; [done|].
  apply Forall_cons in Hq as [Hev Hq]. intros Hb. apply IH; [done|].
  intros v Hv. destruct (step_settings _ _ _ Hs) as (_ & _ & ->).
  destruct (step_other _ _ _ ip Hs Hev) as [Heq | (Heq & _)]; rewrite Heq in Hv.
  - by apply Hb.
  - done.
Qed.

(** After a refused request, whatever is on record for the client is from
    before its block was set. *)
Lemma before_block_after_blocked r ip t1 t2 t3 r' lo :
  inv r lo → lo ≤ t1 → t1 ≤ t2 → t2 ≤ t3 →
  RateLimit r ip t1 t2 t3 = (r', Blocked) → before_block ip r'.
Proof.
  intros Hi ? ? ? H. apply RateLimit_cases in H.
  destruct H as [((v & Hv & Hb) & -> & _) | [(_ & _ & -> & _) | (_ & _ & _ & ?)]]; [| |done].
  - intros v' Hv'. simplify_eq. apply (Hi ip v Hv). lia.
  - intros v'. simpl. rewrite lookup_insert_eq. intros [= <-]. simpl.
    apply prune_Forall. pose proof (entry_of_timely r ip lo Hi) as Hent.
    eapply Forall_impl; [exact Hent|]. simpl. intros; lia.
Qed.

(** C7, as the code has it.  A limiter whose block lasts at least as long as
    its window and whose limit is positive: a client whose last request was
    refused, and whose block has expired since, is admitted at its next
    request, and of its record only that request counts in the new window. *)
Theorem admission_resumes_after_block l w b tr_a ip b1 b2 b3 tr_b r1 T1 T2 T3 :
  let r0 := NewRateLimitMiddleware l w b in
  let tr := tr_a ++ EvRequest ip b1 b2 b3 Blocked :: tr_b in
  0 < l → w ≤ b →
  exec r0 tr r1 →
  chrono 0 tr T1 → T1 ≤ T2 → T2 ≤ T3 →
  Forall (λ ev, ¬ is_request_of ip ev) tr_b →
  blocked_until ip r1 ≤ T1 →
  ∃ r2,
    RateLimit r1 ip T1 T2 T3 = (r2, Allowed)
    ∧ recent ip (T2 - w) r1 = 0%nat
    ∧ Requests <$> visitors r2 !! ip = Some [T2].
Proof.
  intros r0 tr Hl Hwb He Hc H12 H23 Hquiet Hexp.
  destruct (exec_settings _ _ _ He) as (Hl1 & Hw1 & Hb1). simpl in Hl1, Hw1, Hb1.
  pose proof (chrono_le _ _ _ Hc) as HT1.
  assert (before_block ip r1) as Hbb.
  { subst tr. apply exec_app in He as (ra & Ha & He).
    inversion He as [|? ? rb ? ? Hs Hb]; subst. simpl in Hs.
    apply chrono_app in Hc as (mid & Hca & Hcb). simpl in Hcb.
    destruct Hcb as (? & ? & ? & Hcb).
    apply (before_block_quiet rb tr_b); [done..|].
    apply (before_block_after_blocked ra ip b1 b2 b3 rb mid); [|done..].
    apply (inv_exec r0 tr_a ra 0 mid); [lia | apply inv_new | done | done]. }
  assert (¬ blocked_at ip r1 T1) as Hnb by (by apply not_blocked_at).
  assert (prune (T2 - window r1) (Requests (entry_of r1 ip)) = []) as Hpr.
  { apply prune_all_old. unfold entry_of.
    destruct (visitors r1 !! ip) as [v|] eqn:Hv; simpl; [|constructor].
    eapply Forall_impl; [exact (Hbb v Hv)|]. simpl. intros e He'.
    unfold blocked_until in Hexp. rewrite Hv in Hexp. lia. }
  assert (recent ip (T2 - window r1) r1 = 0%nat) as Hrec.
  { unfold recent. unfold entry_of in Hpr.
    destruct (visitors r1 !! ip) as [v|]; simpl in *; [by rewrite Hpr | done]. }
  eexists. split; [|split].
  - apply RateLimit_under_limit; [done|]. rewrite Hrec. lia.
  - by rewrite <- Hw1.
  - simpl. rewrite lookup_insert_eq. simpl. by rewrite Hpr.
Qed.

Lemma replay_exec r tr r' : replay r tr = Some r' → exec r tr r'.
Proof.
  revert r. induction tr as [|[ip t1 t2 t3 d|now] tr IH]; simpl; intros r H.
  - simplify_eq. constructor.
  - case_decide as Hd; [|done]. econstructor; [|by apply IH].
    simpl. rewrite <- Hd. by destruct (RateLimit r ip t1 t2 t3).
  - econstructor; [|by apply IH]. done.
Qed.

(** Scenario A: with limit 3 and a window of 60 s, three requests are
    admitted and the fourth, a second later, is refused; the refusals last
    for the hour that follows. *)
Lemma limit_reached_blocks_scenarioA :
  ∃ r2,
    RateLimit scenarioA_state "203.0.113.7" (4 * second) (4 * second) (4 * second) = (r2, Blocked)
    ∧ ∀ tr' r3 hi,
        exec r2 tr' r3 → chrono (4 * second) tr' hi →
        ∀ t1 t2 t3 d,
          EvRequest "203.0.113.7" t1 t2 t3 d ∈ tr' →
          t1 < 4 * second + blockWindow scenarioA_limiter → d = Blocked.
Proof.
  apply (limit_reached_blocks scenarioA_limiter
           [request_at "203.0.113.7" (1 * second) Allowed;
            request_at "203.0.113.7" (2 * second) Allowed]
           "203.0.113.7" (3 * second) (3 * second) (3 * second) []
           scenarioA_state (4 * second) (4 * second) (4 * second)).
  - apply replay_exec. vm_compute. reflexivity.
  - vm_compute. intuition discriminate.
  - lia.
  - lia.
  - constructor.
  - vm_compute. discriminate.
Defined.

(** Scenario B: the client refused at 4 s is blocked for an hour; it makes no
    request meanwhile and its request one second after the hour is admitted,
    alone in its new window. *)
Lemma admission_resumes_scenarioB :
  let T := 4 * second + hour + 1 * second in
  ∃ r2,
    RateLimit scenarioB_state "203.0.113.7" T T T = (r2, Allowed)
    ∧ recent "203.0.113.7" (T - minute) scenarioB_state = 0%nat
    ∧ Requests <$> visitors r2 !! "203.0.113.7" = Some [T].
Proof.
  apply (admission_resumes_after_block 3 minute hour scenarioA_run
           "203.0.113.7" (4 * second) (4 * second) (4 * second) []
           scenarioB_state).
  - lia.
  - vm_compute. discriminate.
  - apply replay_exec. vm_compute. reflexivity.
  - vm_compute. intuition discriminate.
  - lia.
  - lia.
  - constructor.
  - vm_compute. discriminate.
Defined.

(** C7 fails when blocks are shorter than the window.  Limit 2, window 60 s,
    blocks of 10 s: requests at 1 s and 2 s are admitted, the one at 3 s is
    refused and blocks the client until 13 s.  The client makes no request
    meanwhile; at 13 s the block has expired, yet the two requests from
    before the block are still within the window, count against the limit,
    and the client is refused again. *)
Lemma short_block_refused_again :
  let T := 13 * second in
  exec short_block_limiter short_block_run short_block_state
  ∧ chrono 0 short_block_run T
  ∧ blocked_until "203.0.113.7" short_block_state ≤ T
  ∧ recent "203.0.113.7" (T - window short_block_limiter) short_block_state = 2%nat
  ∧ (RateLimit short_block_state "203.0.113.7" T T T).2 = Blocked.
Proof.
  intros T. split; [apply replay_exec; vm_compute; reflexivity|].
  split; [vm_compute; intuition discriminate|].
  split; [vm_compute; discriminate|].
  split; vm_compute; reflexivity.
Qed.

End RateLimitFacts.

(** ** The statistics *)

Section StatsFacts.
Import Go Services.

Lemma wrap64_small z : minInt64 ≤ z ≤ maxInt64 → wrap64 z = z.
Proof.
  unfold wrap64, minInt64, maxInt64. intros H.
  rewrite Z.mod_small; lia.
Qed.

Lemma wrap64_range z : minInt64 ≤ wrap64 z ≤ maxInt64.
Proof.
  unfold wrap64, minInt64, maxInt64.
  pose proof (Z.mod_pos_bound (z + 2 ^ 63) (2 ^ 64)). lia.
Qed.

Lemma wrap64_add_l a b : wrap64 (wrap64 a + b) = wrap64 (a + b).
Proof.
  unfold wrap64.
  replace ((a + 2 ^ 63) mod 2 ^ 64 - 2 ^ 63 + b + 2 ^ 63)
    with ((a + 2 ^ 63) mod 2 ^ 64 + b) by lia.
  rewrite Zplus_mod_idemp_l. f_equal. f_equal. lia.
Qed.

(** One operation on counters that are in order. *)
Lemma apply_op_ok (op : StatsOp) (st : Stats.t) :
  stats_ok st →
  Stats.TotalScans st + scans_added op ≤ maxInt64 →
  stats_ok (apply_op op st)
  ∧ Stats.TotalScans (apply_op op st) = Stats.TotalScans st + scans_added op.
Proof.
  intros (H0 & Hle & Hmax) Hroom.
  assert (minInt64 ≤ 0) by (unfold minInt64; lia).
  destruct op as [ms isNSFW | count ms | ];
    unfold stats_ok; cbn [apply_op updateStats updateTotalScans scans_added
                           Stats.TotalScans Stats.NSFWDetected] in *.
  - rewrite (wrap64_small (Stats.TotalScans st + 1)) by lia.
    destruct isNSFW; [rewrite wrap64_small by lia|]; lia.
  - rewrite (wrap64_small (Stats.TotalScans st + Z.of_nat count)) by lia. lia.
  - lia.
Qed.

Lemma scans_added_nonneg op : 0 ≤ scans_added op.
Proof. destruct op; simpl; lia. Qed.

(** C10. Every operation on the counters (the record of one image, the
    aggregate record of a batch, the snapshot) keeps the positive detections
    at or below the scans and never lowers the scans, as long as the scans
    stay within [int64]. *)
Theorem stats_invariant (op : StatsOp) (st : Stats.t) :
  stats_ok st →
  Stats.TotalScans st + scans_added op ≤ maxInt64 →
  Stats.NSFWDetected (apply_op op st) ≤ Stats.TotalScans (apply_op op st)
  ∧ Stats.TotalScans st ≤ Stats.TotalScans (apply_op op st)
  ∧ stats_ok (apply_op op st).
Proof.
  intros Hok Hroom. destruct (apply_op_ok op st Hok Hroom) as (Hok' & Htot).
  pose proof (scans_added_nonneg op).
  split; [apply Hok' | split; [lia | done]].
Qed.

(** The counters of a new service, after the record of a positive image and
    the aggregate record of a batch of two. *)
Lemma stats_invariant_examples :
  let st := updateStats 120 true (Stats.mk 0 0 0) in
  Stats.NSFWDetected (apply_op (OpRecordBatch 2 300) st)
    ≤ Stats.TotalScans (apply_op (OpRecordBatch 2 300) st)
  ∧ Stats.TotalScans st ≤ Stats.TotalScans (apply_op (OpRecordBatch 2 300) st)
  ∧ stats_ok (apply_op (OpRecordBatch 2 300) st).
Proof.
  apply (stats_invariant (OpRecordBatch 2 300) (updateStats 120 true (Stats.mk 0 0 0))).
  - vm_compute. intuition discriminate.
  - vm_compute. discriminate.
Defined.

Lemma scans_added_by_nonneg ops : 0 ≤ scans_added_by ops.
Proof.
  unfold scans_added_by. induction ops as [|[] ops IH]; simpl; lia.
Qed.

Lemma scans_added_by_snoc ops op :
  scans_added_by (ops ++ [op]) = scans_added_by ops + scans_added op.
Proof.
  unfold scans_added_by. induction ops as [|o ops IH]; simpl; [lia|].
  rewrite IH. lia.
Qed.

(** The same along any series of operations on the counters of a new
    service: the scans are the sum of what the operations add. *)
Lemma stats_invariant_run (ops : list StatsOp) :
  scans_added_by ops ≤ maxInt64 →
  stats_ok (run_ops ops) ∧ Stats.TotalScans (run_ops ops) = scans_added_by ops.
Proof.
  unfold run_ops. induction ops as [|op ops IH] using rev_ind; intros Hroom.
  - simpl. unfold stats_ok, maxInt64. simpl. lia.
  - rewrite scans_added_by_snoc in Hroom |- *.
    pose proof (scans_added_by_nonneg ops).
    assert (0 ≤ scans_added op) by (destruct op; simpl; lia).
    destruct IH as (Hok & Htot); [lia|].
    rewrite foldl_app. simpl.
    destruct (apply_op_ok op _ Hok) as (Hok' & Htot'); [lia|].
    split; [done | lia].
Qed.

End StatsFacts.

(** ** Readiness *)

Section ReadinessFacts.
Import Runtime Services Handlers Scenarios.

(** [IsReady] is the test that the registry lists at least one model. *)
Lemma IsReady_listed (s : NSFWService.t) :
  IsReady s = true ↔ (0 < length (GetLoadedModels (NSFWService.onnxService s)))%nat.
Proof. unfold IsReady. apply bool_decide_eq_true. Qed.

(** [main] makes this test once, before any route is served, and stops when
    it fails: where [/ready] is served the registry is not empty and the
    handler reports ready; with an empty registry nothing is served. *)
Lemma main_gate (E : Env) (cfg : Config.t) :
  match main E cfg with
  | Serving s h =>
      s = NewNSFWService E cfg
      ∧ (0 < length (GetLoadedModels (NSFWService.onnxService s)))%nat
      ∧ reports_ready (Ready h) = true
  | Fatal _ => GetLoadedModels (NSFWService.onnxService (NewNSFWService E cfg)) = []
  end.
Proof.
  unfold main, IsReady. case_bool_decide as Hn; simpl.
  - done.
  - destruct (GetLoadedModels _); [done | simpl in Hn; lia].
Qed.

(** With no model file on disk [main] stops with the fatal error. *)
Lemma main_no_models_fatal :
  main no_models default_config = Fatal "Service is not ready - no models loaded".
Proof. vm_compute. done. Qed.

End ReadinessFacts.

(** ** The gate on inference *)

Section InferenceFacts.
Import Runtime Go Services Scenarios.
Context (E : Env).

Lemma preprocessAndRunInference_gate modelName imageData w :
  (preprocessAndRunInference E modelName imageData w).1 = Err ErrRateLimitExceeded
  ↔ token_available w (clock E (ticks w)) = false.
Proof.
  unfold preprocessAndRunInference, token_available, bind, emit, get_onnx, now, set_limiter,
    get_ticks, ret. simpl.
  destruct (Rate.Allow _ _) as [[] lim]; simpl.
  - split; [|done].
    destruct (ONNXRuntimeService.models _ !! modelName) as [m|]; [|done].
    destruct (stdinDecodes E _); simpl; [|done].
    destruct (postprocess _ _ _); done.
  - done.
Qed.

(** C6, as the code has it.  Inference goes through a token bucket of the
    service, shared by all clients (10 tokens a second, 20 at most): a call of
    [RunInference] fails with the rate-limit error exactly when its context is
    not done and the bucket has no token when the call reaches it. *)
Theorem inference_gate ctx modelName imageData w :
  (RunInference E ctx modelName imageData w).1 = Err ErrRateLimitExceeded
  ↔ ctx (S (ticks w)) = false ∧ token_available w (clock E (S (ticks w))) = false.
Proof.
  unfold RunInference, bind, now, get_ticks, ret. simpl.
  destruct (ctx (S (ticks w))) eqn:Hctx; simpl.
  - split; [done | intros [? _]; done].
  - pose proof (preprocessAndRunInference_gate modelName imageData
                  (mkWorld (service w) (S (ticks w)) (effects w))) as Hg.
    simpl in Hg. unfold token_available in *. simpl in Hg.
    destruct (preprocessAndRunInference E modelName imageData _) as [[r|e|] w'] eqn:Hr;
      simpl in *.
    + split; [done|]. intros [_ Ht]. apply Hg in Ht. done.
    + rewrite <- Hg. split; [intros [= ->]; done | intros [_ ?]; done].
    + split; [done|]. intros [_ Ht]. apply Hg in Ht. done.
Qed.

End InferenceFacts.

Section InferenceScenario.
Import Runtime Go Services Scenarios.

(** C6 fails.  Twenty-one clients make one request each within 21 ms; the
    limiter of [main] admits them all; each names a registered model.  The
    first twenty inferences succeed and the twenty-first fails with the
    rate-limit error of the shared bucket. *)
Lemma inference_rate_limited_after_admission :
  let limiter := Middleware.NewRateLimitMiddleware 100 Middleware.minute Middleware.hour in
  let w := fresh all_models default_config in
  (∃ r, Middleware.exec limiter crowd r)
  ∧ Forall (λ ev, ∃ ip t, ev = Middleware.request_at ip t Middleware.Allowed) crowd
  ∧ modelExists (service w) "mobilenetv2-7" = true
  ∧ map is_rate_limited (inferences 21 w).1 = replicate 20 false ++ [true].
Proof.
  intros limiter w. split; [|split; [|split]].
  - destruct (Middleware.replay limiter crowd) as [r|] eqn:Hr.
    + exists r. by apply replay_exec.
    + vm_compute in Hr. discriminate.
  - unfold crowd. apply Forall_map, Forall_forall. intros k _. simpl. eauto.
  - vm_compute. reflexivity.
  - vm_compute. reflexivity.
Qed.

End InferenceScenario.

(** ** Image sources *)

Section AcquisitionFacts.
Import Runtime Go Services Scenarios.
Context (E : Env).

Lemma acquisitions_app w es :
  acquisitions (mkWorld (service w) (ticks w) (effects w ++ es))
  = acquisitions w ++ List.filter is_acquisition es.
Proof. unfold acquisitions. simpl. apply List.filter_app. Qed.

Lemma base64ToBytes_world cfg text w :
  (base64ToBytes cfg text w).2
  = mkWorld (service w) (ticks w) (effects w ++ [EffDecodeBase64 text]).
Proof.
  unfold base64ToBytes, bind, emit, ret.
  destruct (DecodeString _); [case_match|]; done.
Qed.

Lemma urlToBytes_world cfg url w :
  (urlToBytes E cfg url w).2
  = mkWorld (service w) (ticks w)
      (effects w ++ match httpGet E url with
                    | HttpBadRequest => []
                    | _ => [EffHttpGet url]
                    end).
Proof.
  unfold urlToBytes, bind, emit, ret.
  destruct (httpGet E url) as [| |status cl body readOk]; simpl.
  - rewrite app_nil_r. by destruct w.
  - done.
  - repeat case_match; done.
Qed.

(** C8. How the image of a request is found.  Inline text, when there is
    some, is decoded and nothing is fetched, whether or not an address comes
    with it; with no inline text and an address, the address is fetched; with
    neither, the call fails with the error of the missing source and does
    nothing. *)
Theorem image_source_resolution cfg base64Str urlStr w :
  match base64Str, urlStr with
  | String _ _, _ =>
      getImageData E cfg base64Str urlStr w = base64ToBytes cfg base64Str w
      ∧ acquisitions (getImageData E cfg base64Str urlStr w).2
        = acquisitions w ++ [EffDecodeBase64 base64Str]
  | EmptyString, String _ _ =>
      getImageData E cfg base64Str urlStr w = urlToBytes E cfg urlStr w
      ∧ acquisitions (getImageData E cfg base64Str urlStr w).2
        = acquisitions w ++ match httpGet E urlStr with
                            | HttpBadRequest => []
                            | _ => [EffHttpGet urlStr]
                            end
  | EmptyString, EmptyString =>
      getImageData E cfg base64Str urlStr w = (Err ErrMissingImageSource, w)
  end.
Proof.
  unfold getImageData.
  destruct base64Str as [|c b]; [destruct urlStr as [|c u]|]; simpl.
  - done.
  - split; [done|]. rewrite urlToBytes_world, acquisitions_app.
    by destruct (httpGet E _).
  - split; [done|]. by rewrite base64ToBytes_world, acquisitions_app.
Qed.

(** A model that is not a detection model is not found by the loop of
    [DetectImage]. *)
Lemma detectionModelExists_false s model :
  HasPrefix (ToLower model) "nudenet" = false → detectionModelExists s model = false.
Proof.
  intros Hp. unfold detectionModelExists.
  induction (GetLoadedModels _) as [|n l IH]; [done|]. simpl.
  rewrite IH, orb_false_r.
  destruct (String.eqb_spec n model) as [->|]; [by rewrite Hp | done].
Qed.

(** C9. A detection call that names a registered model whose name does not
    mark it as a detection model fails with the error of the unsupported
    operation; nothing is decoded, nothing is fetched, no inference runs. *)
Theorem detect_unsupported_without_acquisition ctx req w :
  modelExists (service w) (ScanRequest.Model req) = true →
  HasPrefix (ToLower (ScanRequest.Model req)) "nudenet" = false →
  (DetectImage E ctx req w).1 = Err (ErrUnsupportedOperation (ScanRequest.Model req))
  ∧ effects (DetectImage E ctx req w).2 = effects w
  ∧ acquisitions (DetectImage E ctx req w).2 = acquisitions w.
Proof.
  intros _ Hp.
  unfold DetectImage, DetectImage_body, acquisitions, bind, now, since, get_service, on_stats, ret.
  simpl. rewrite detectionModelExists_false by done. simpl. done.
Qed.

End AcquisitionFacts.

Section AcquisitionScenario.
Import Runtime Go Services Scenarios.

(** Scenario E: detection asked of the classifier [mobilenetv2-7]. *)
Lemma detect_with_classifier_unsupported :
  let w := fresh all_models default_config in
  (DetectImage all_models Background detect_with_classifier w).1
    = Err (ErrUnsupportedOperation "mobilenetv2-7")
  ∧ effects (DetectImage all_models Background detect_with_classifier w).2 = effects w
  ∧ acquisitions (DetectImage all_models Background detect_with_classifier w).2
    = acquisitions w.
Proof.
  apply (detect_unsupported_without_acquisition all_models Background
           detect_with_classifier (fresh all_models default_config)).
  - vm_compute. reflexivity.
  - vm_compute. reflexivity.
Defined.

End AcquisitionScenario.

(** ** Scans and the statistics *)

Section ScanFacts.
Import Runtime Go Services Scenarios.
Context (E : Env).

(** What the steps of a scan leave untouched. *)
Lemma RunInference_frame ctx modelName imageData w :
  let w' := (RunInference E ctx modelName imageData w).2 in
  stats_of w' = stats_of w
  ∧ failures w' = failures w
  ∧ NSFWService.config (service w') = NSFWService.config (service w)
  ∧ ONNXRuntimeService.models (NSFWService.onnxService (service w'))
    = ONNXRuntimeService.models (NSFWService.onnxService (service w)).
Proof.
  unfold RunInference, preprocessAndRunInference, bind, now, since, emit, get_onnx, get_ticks,
    set_limiter, ret, stats_of, failures. simpl.
  destruct (ctx _); simpl; [done|].
  destruct (Rate.Allow _ _) as [[] lim]; simpl; [|frame_done].
  destruct (ONNXRuntimeService.models _ !! modelName) as [m|]; simpl; [|frame_done].
  destruct (stdinDecodes E _); simpl; [|frame_done].
  destruct (postprocess _ _ _); simpl; frame_done.
Qed.

Lemma RunInference_no_panic ctx modelName imageData w :
  (RunInference E ctx modelName imageData w).1 ≠ Panic.
Proof.
  unfold RunInference, preprocessAndRunInference, bind, now, since, emit, get_onnx, get_ticks,
    set_limiter, ret. simpl.
  destruct (ctx _); simpl; [done|].
  destruct (Rate.Allow _ _) as [[] lim]; simpl; [|done].
  destruct (ONNXRuntimeService.models _ !! modelName) as [m|]; simpl; [|done].
  destruct (stdinDecodes E _); simpl; [|done].
  destruct (postprocess _ _ _); done.
Qed.

Lemma getImageData_frame cfg base64Str urlStr w :
  let w' := (getImageData E cfg base64Str urlStr w).2 in
  service w' = service w ∧ ticks w' = ticks w ∧ failures w' = failures w.
Proof.
  unfold getImageData.
  destruct (nonempty base64Str); [|destruct (nonempty urlStr)].
  - rewrite base64ToBytes_world. unfold failures. simpl.
    rewrite List.filter_app, length_app. simpl. repeat split; lia.
  - rewrite urlToBytes_world. unfold failures. simpl.
    rewrite List.filter_app, length_app. destruct (httpGet E urlStr); simpl; repeat split; lia.
  - done.
Qed.

(** The body of a single scan records the image once, when it succeeds. *)
Lemma ScanImage_body_total_scans ctx req w :
  let out := ScanImage_body E ctx req w in
  total_scans out.2 =
    match out.1 with
    | Ok _ => wrap64 (total_scans w + 1)
    | _ => total_scans w
    end.
Proof.
  unfold ScanImage_body, bind, get_service, ret. simpl.
  destruct (modelExists _ _); simpl; [|done].
  pose proof (getImageData_frame (NSFWService.config (service w))
                (ScanRequest.ImageBase64 req) (ScanRequest.ImageURL req) w) as (Hs & _).
  destruct (getImageData E _ _ _ w) as [[imgData|e|] w1]; simpl in *;
    [|unfold total_scans; rewrite Hs; done..].
  destruct (slice_to imgData 512) as [head|]; simpl;
    [|unfold total_scans; rewrite Hs; done].
  destruct (decodeConfigOk E _); simpl;
    [|unfold total_scans; rewrite Hs; done].
  pose proof (RunInference_frame ctx (ScanRequest.Model req) imgData w1) as (Hst & _).
  unfold stats_of in Hst.
  destruct (RunInference E ctx _ imgData w1) as [[response|e|] w2]; simpl in *;
    unfold total_scans, on_stats; simpl; rewrite ?Hst, ?Hs; done.
Qed.

(** A single scan records the call when it returns, whatever the outcome,
    on top of what its body has recorded: two scans for an image that was
    processed, one for a call that failed. *)
Lemma ScanImage_total_scans ctx req w :
  let out := ScanImage E ctx req w in
  total_scans out.2 =
    match out.1 with
    | Ok _ => wrap64 (wrap64 (total_scans w + 1) + 1)
    | _ => wrap64 (total_scans w + 1)
    end.
Proof.
  unfold ScanImage, bind, now, since, on_stats, ret. simpl.
  pose proof (ScanImage_body_total_scans ctx req
                (mkWorld (service w) (S (ticks w)) (effects w))) as Hb.
  simpl in Hb.
  destruct (ScanImage_body E ctx req _) as [out w1]; simpl in *.
  unfold total_scans in *. simpl in *. rewrite Hb.
  destruct out; done.
Qed.

(** The format check of [ScanImage] takes [imgData[:512]].  An inline
    payload decoded into a buffer of fewer than 512 bytes makes it panic. *)
Lemma ScanImage_short_inline_panics ctx req w data :
  modelExists (service w) (ScanRequest.Model req) = true →
  nonempty (ScanRequest.ImageBase64 req) = true →
  DecodeString (default (ScanRequest.ImageBase64 req)
                        (after_comma (ScanRequest.ImageBase64 req))) = Some data →
  Z.of_nat (len data) ≤ maxBytes (NSFWService.config (service w)) →
  (cap data < 512)%nat →
  (ScanImage E ctx req w).1 = Panic.
Proof.
  intros Hm Hb Hd Hsz Hcap.
  unfold ScanImage, ScanImage_body, getImageData, base64ToBytes, bind, now, since, on_stats,
    get_service, emit, ret. simpl.
  rewrite Hm, Hb, Hd. simpl.
  destruct (Z.ltb_spec (maxBytes (NSFWService.config (service w))) (Z.of_nat (len data)));
    [lia|]. simpl.
  unfold slice_to. rewrite decide_False by lia. done.
Qed.

Lemma ReadAll_cap data : (512 ≤ cap (ReadAll data))%nat.
Proof. unfold cap, ReadAll, zeros. simpl. rewrite length_app, length_replicate. lia. Qed.

(** A payload fetched from an address comes in a buffer of 512 bytes at
    least: the same check stays in range. *)
Lemma ScanImage_url_no_panic ctx req w :
  ScanRequest.ImageBase64 req = "" →
  (ScanImage E ctx req w).1 ≠ Panic.
Proof.
  intros Hb.
  unfold ScanImage, ScanImage_body, getImageData, bind, now, since, on_stats,
    get_service, ret. simpl. rewrite Hb. simpl.
  destruct (modelExists _ _); simpl; [|done].
  destruct (nonempty (ScanRequest.ImageURL req)); simpl; [|done].
  unfold urlToBytes, bind, emit, ret.
  destruct (httpGet E _) as [| |status cl body readOk]; simpl; [done..|].
  destruct (negb (status =? 200)); simpl; [done|].
  destruct (_ <? cl); simpl; [done|].
  destruct (negb readOk); simpl; [done|].
  destruct (_ <? Z.of_nat _); simpl; [done|].
  unfold slice_to. rewrite decide_True by apply ReadAll_cap. simpl.
  destruct (decodeConfigOk E _); simpl; [|done].
  match goal with
  | |- context [RunInference E ctx ?m ?d ?w0] =>
      pose proof (RunInference_no_panic ctx m d w0) as Hnp;
      destruct (RunInference E ctx m d w0) as [[r|e|] w2]
  end; simpl in *; done.
Qed.

(** One round of the batch loop: an item that succeeds is recorded as one
    scan, an item that fails is logged and not recorded. *)
Lemma batchItem_counts ctx model imgReq w :
  let out := batchItem E ctx model imgReq w in
  match out.1 with
  | Some _ => failures out.2 = failures w ∧ total_scans out.2 = wrap64 (total_scans w + 1)
  | None => failures out.2 = S (failures w) ∧ total_scans out.2 = total_scans w
  end.
Proof.
  unfold batchItem, bind, now, get_service. simpl.
  change (if nonempty (BatchImageItem.ImageBase64 imgReq) then _ else _)
    with (getImageData E (NSFWService.config (service w))
            (BatchImageItem.ImageBase64 imgReq) (BatchImageItem.ImageURL imgReq)).
  pose proof (getImageData_frame (NSFWService.config (service w))
                (BatchImageItem.ImageBase64 imgReq) (BatchImageItem.ImageURL imgReq)
                (mkWorld (service w) (S (ticks w)) (effects w)))
    as (Hs & _ & Hf).
  destruct (getImageData E _ _ _ _) as [[imgData|e|] w1]; simpl in *.
  - pose proof (RunInference_frame ctx model imgData w1) as (Hst & Hf2 & _).
    unfold stats_of in Hst.
    destruct (RunInference E ctx model imgData w1) as [[response|e|] w2]; simpl in *;
      unfold total_scans, failures, on_stats, emit, ret in *; simpl in *;
      rewrite ?List.filter_app, ?length_app, ?Hst, ?Hs; simpl; split; (done || lia).
  - unfold total_scans, failures, emit, ret in *; simpl in *.
    rewrite List.filter_app, length_app, Hs, Hf. simpl. split; [lia | done].
  - unfold total_scans, failures, emit, ret in *; simpl in *.
    rewrite List.filter_app, length_app, Hs, Hf. simpl. split; [lia | done].
Qed.

Lemma batchLoop_counts ctx model images :
  ∀ results w,
    let out := batchLoop E ctx model images results w in
    ∃ k : nat,
      length out.1 = (length results + k)%nat
      ∧ (failures w ≤ failures out.2)%nat
      ∧ (failures w + length images = failures out.2 + k)%nat
      ∧ ∀ c, wrap64 (total_scans out.2 + c) = wrap64 (total_scans w + Z.of_nat k + c).
Proof.
  induction images as [|imgReq rest IH]; intros results w; simpl.
  - exists 0%nat. split; [lia|]. split; [lia|]. split; [lia|]. intros c. f_equal. lia.
  - unfold bind. pose proof (batchItem_counts ctx model imgReq w) as Hi.
    destruct (batchItem E ctx model imgReq w) as [[result|] w1]; simpl in Hi;
      destruct Hi as (Hf & Ht).
    + destruct (IH (results ++ [result]) w1) as (k & Hl & Hle & Hfl & Htot).
      exists (S k). rewrite length_app in Hl. simpl in Hl.
      split; [lia|]. split; [lia|]. split; [lia|]. intros c.
      rewrite Htot, Ht.
      replace (wrap64 (total_scans w + 1) + Z.of_nat k + c)
        with (wrap64 (total_scans w + 1) + (Z.of_nat k + c)) by lia.
      rewrite wrap64_add_l. f_equal. lia.
    + destruct (IH results w1) as (k & Hl & Hle & Hfl & Htot).
      exists k. split; [lia|]. split; [lia|]. split; [lia|].
      intros c. rewrite Htot, Ht. done.
Qed.

(** A batch on a registered model returns one result for each item that did
    not fail, and the scans grow by twice the number of results: once in the
    loop for each result, once more in the aggregate record. *)
Lemma ScanBatch_counts ctx req w :
  modelExists (service w) (BatchScanRequest.Model req) = true →
  let out := ScanBatch E ctx req w in
  ∃ results,
    out.1 = Ok (BatchScanResponse.mk results)
    ∧ (length results + (failures out.2 - failures w)
       = length (BatchScanRequest.Images req))%nat
    ∧ total_scans out.2 = wrap64 (total_scans w + 2 * Z.of_nat (length results)).
Proof.
  intros Hm. unfold ScanBatch, ScanBatch_body, bind, now, since, get_service, on_stats, ret.
  simpl. rewrite Hm. simpl.
  destruct (batchLoop_counts ctx (BatchScanRequest.Model req) (BatchScanRequest.Images req)
              [] (mkWorld (service w) (S (ticks w)) (effects w)))
    as (k & Hl & Hle & Hf & Htot).
  destruct (batchLoop E ctx _ _ [] _) as [results w1]; simpl in *.
  unfold failures, total_scans in *. simpl in *.
  exists results. split; [done|]. split.
  - lia.
  - rewrite Htot, Hl. f_equal. lia.
Qed.

End ScanFacts.

Section ScanScenario.
Import Runtime Go Services Scenarios.

(** C1 at a batch of three items whose second address answers 404
    (scenario C).  The response holds the results of items 1 and 3 and one
    failure is logged, as the claim says; but the scans, 0 before the call,
    are 4 after it and not 2: each result is recorded in the loop and again
    in the aggregate record. *)
Theorem batch_of_three_counts_results_twice :
  let w := fresh all_models default_config in
  let out := ScanBatch all_models Background batch_of_three w in
  (BatchScanResult.ID <$> (match out.1 with
                           | Ok resp => BatchScanResponse.Results resp
                           | _ => []
                           end)) = ["1"; "3"]
  ∧ (failures out.2 - failures w)%nat = 1%nat
  ∧ total_scans w = 0
  ∧ total_scans out.2 = 4.
Proof. vm_compute. done. Qed.

(** C2 at two calls on a new service.  A scan that succeeds leaves the scans
    at 2 and not 1: the image is recorded after the inference and the call
    is recorded again when it returns.  A scan that fails because its model
    is unknown leaves the scans at 1 and not 0. *)
Theorem single_scan_counts_twice_and_counts_failures :
  let w := fresh all_models default_config in
  let good := ScanImage all_models Background scan_ok w in
  let bad := ScanImage all_models Background scan_unknown_model w in
  total_scans w = 0
  ∧ (∃ response, good.1 = Ok response) ∧ total_scans good.2 = 2
  ∧ bad.1 = Err (ErrModelNotFound "resnet") ∧ total_scans bad.2 = 1.
Proof.
  vm_compute. split; [done|]. split; [eauto|]. done.
Qed.

(** C4 at an inline image of 68 bytes.  The base64 text of the one-pixel
    PNG decodes to its 68 bytes in a buffer of 69 bytes, the model is
    registered, and the format check [imgData[:512]] is out of range: the
    call panics. *)
Theorem short_inline_payload_panics :
  let w := fresh all_models default_config in
  modelExists (service w) "mobilenetv2-7" = true
  ∧ (base64ToBytes default_config small_image_base64 w).1
    = Ok (mkSlice (small_image ++ [Byte.x00]) 68)
  ∧ (ScanImage all_models Background scan_short_inline w).1 = Panic.
Proof. vm_compute. done. Qed.

End ScanScenario.

(* ===================================================================== *)
(** * Further properties *)
(* ===================================================================== *)

(** ** The rate limiter: budget, records, isolation *)

Section RateLimitMore.
Import Middleware MiddlewareRuns.

Implicit Types (r : RateLimitMiddleware) (ip : string) (tr : list Event).

(** The decision depends on the record of the client and on nothing else. *)
Lemma RateLimit_decision r ip t1 t2 t3 :
  (RateLimit r ip t1 t2 t3).2 = decision_on (visitors r !! ip) (limit r) (window r) t1 t2.
Proof.
  unfold RateLimit, decision_on.
  destruct (visitors r !! ip) as [v|]; simpl.
  - repeat case_bool_decide; done.
  - repeat case_bool_decide; simpl in *; (done || lia).
Qed.

Lemma requests_of_app ip tr1 tr2 :
  requests_of ip (tr1 ++ tr2) = (requests_of ip tr1 + requests_of ip tr2)%nat.
Proof. induction tr1 as [|ev tr1 IH]; simpl; [done | rewrite IH; lia]. Qed.

Lemma prune_length c (l : list Z) : (length (prune c l) ≤ length l)%nat.
Proof. unfold prune. apply length_filter. Qed.

Lemma within_budget_step ip n r ev r' lo hi :
  0 ≤ lo → chrono lo [ev] hi → step r ev r' →
  within_budget ip n r →
  Z.of_nat (n + requests_of ip [ev]) < limit r + 1 →
  within_budget ip (n + requests_of ip [ev]) r'
  ∧ (is_request_of ip ev → ∃ t1 t2 t3, ev = EvRequest ip t1 t2 t3 Allowed).
Proof.
  intros H0 Hc Hs Hb Hn.
  destruct (decide (is_request_of ip ev)) as [Hip|Hip].
  - destruct ev as [ip' t1 t2 t3 d|now]; [|done]. simpl in Hip. subst ip'.
    simpl in Hc, Hs, Hn |- *. rewrite decide_True in Hn |- * by done.
    destruct Hc as (? & ? & ? & ?).
    unfold within_budget in Hb.
    assert (¬ blocked_at ip r t1) as Hnb.
    { intros (v & Hv & Hlt). rewrite Hv in Hb. destruct Hb as (Hz & _).
      unfold zeroTime in Hz. lia. }
    assert (recent ip (t2 - window r) r ≤ n)%nat as Hrec.
    { unfold recent. destruct (visitors r !! ip) as [v|]; [|lia].
      destruct Hb as (_ & Hlen). pose proof (prune_length (t2 - window r) (Requests v)). lia. }
    rewrite RateLimit_under_limit in Hs by (done || lia). simplify_eq. split; [|eauto].
    unfold within_budget. simpl. rewrite lookup_insert_eq. simpl.
    unfold entry_of, recent in *.
    destruct (visitors r !! ip) as [v|]; simpl in *; rewrite ?length_app; simpl.
    + destruct Hb as (-> & _). split; [done | lia].
    + split; [done | lia].
  - simpl. rewrite decide_False by done. split; [|done].
    replace (n + (0 + 0))%nat with n by lia.
    destruct (step_other _ _ _ ip Hs Hip) as [Heq | (Heq & _)];
      unfold within_budget; rewrite Heq; done.
Qed.

Lemma within_budget_exec ip tr :
  ∀ n r r' lo hi,
    0 ≤ lo → chrono lo tr hi → exec r tr r' →
    within_budget ip n r →
    Z.of_nat (n + requests_of ip tr) < limit r + 1 →
    within_budget ip (n + requests_of ip tr) r'
    ∧ ∀ t1 t2 t3 d, EvRequest ip t1 t2 t3 d ∈ tr → d = Allowed.
Proof.
  induction tr as [|ev tr IH]; intros n r r' lo hi H0 Hc He Hb Hn.
  - inversion He; subst. simpl. replace (n + 0)%nat with n by lia.
    split; [done|]. intros ? ? ? ? Hin. by apply elem_of_nil in Hin.
  - inversion He as [|? ? r1 ? ? Hs He']; subst.
    assert (∃ mid, lo ≤ mid ∧ chrono lo [ev] mid ∧ chrono mid tr hi) as (mid & ? & Hc1 & Hc2).
    { destruct ev as [ip' t1 t2 t3 d|now]; simpl in Hc |- *.
      - exists t3. repeat split; (tauto || lia).
      - exists now. repeat split; (tauto || lia). }
    change (ev :: tr) with ([ev] ++ tr) in Hn |- *. rewrite requests_of_app in Hn |- *.
    destruct (within_budget_step ip n r ev r1 lo mid H0 Hc1 Hs Hb) as (Hb1 & Hd); [lia|].
    destruct (step_settings _ _ _ Hs) as (Hl & _).
    destruct (IH (n + requests_of ip [ev])%nat r1 r' mid hi) as (Hb2 & Hall);
      [lia | done | done | done | rewrite Hl; lia |].
    split; [by rewrite Nat.add_assoc|].
    intros t1 t2 t3 d Hin. apply elem_of_app in Hin as [Hin|Hin]; [|by eapply Hall].
    apply list_elem_of_singleton in Hin. subst ev.
    destruct (Hd eq_refl) as (? & ? & ? & Heq). by simplify_eq.
Qed.

(** X1. Behind a new limiter, the first [limit] requests of a client are all
    admitted, at whatever pace they come and whatever the other clients do. *)
Theorem requests_within_limit_admitted l w b tr r ip hi :
  exec (NewRateLimitMiddleware l w b) tr r → chrono 0 tr hi →
  Z.of_nat (requests_of ip tr) ≤ l →
  Forall (admits ip) tr.
Proof.
  intros He Hc Hn.
  destruct (within_budget_exec ip tr 0 (NewRateLimitMiddleware l w b) r 0 hi) as (_ & Hall);
    try done; [simpl; lia|].
  apply Forall_forall. intros [ip' t1 t2 t3 d|now] Hin; simpl; [|done].
  intros ->. by eapply Hall.
Qed.

Lemma requests_within_limit_admitted_mixed : Forall (admits "198.51.100.2") mixed_run.
Proof.
  apply (requests_within_limit_admitted 2 minute hour mixed_run mixed_state
           "198.51.100.2" (7 * second)).
  - apply replay_exec. vm_compute. reflexivity.
  - vm_compute. intuition discriminate.
  - vm_compute. discriminate.
Defined.

(** The records stay within the limit. *)
Lemma bounded_step r ev r' : bounded r → step r ev r' → bounded r'.
Proof.
  intros Hb Hs. destruct ev as [ip t1 t2 t3 d|now]; simpl in Hs.
  - assert (Z.of_nat (length (Requests (entry_of r ip))) ≤ Z.max 0 (limit r)) as Hent.
    { unfold entry_of. destruct (visitors r !! ip) as [v|] eqn:Hv; simpl; [|lia].
      by apply (Hb ip). }
    pose proof (prune_length (t2 - window r) (Requests (entry_of r ip))) as Hpr.
    apply RateLimit_cases in Hs.
    destruct Hs as [(_ & -> & _) | [(_ & _ & -> & _) | (_ & Hlt & -> & _)]]; [done| |];
      intros ip' v'; simpl; (destruct (decide (ip = ip')) as [<-|Hne];
        [rewrite lookup_insert_eq; intros [= <-]; simpl
        |rewrite lookup_insert_ne by done; apply Hb]).
    + lia.
    + rewrite length_app. simpl.
      assert (recent ip (t2 - window r) r = length (prune (t2 - window r) (Requests (entry_of r ip)))) as Hr.
      { unfold recent, entry_of. by destruct (visitors r !! ip). }
      lia.
  - subst r'. intros ip v. rewrite cleanup_lookup.
    destruct (visitors r !! ip) as [v0|] eqn:Hv0; [|done].
    case_decide; [done|]. intros [= <-]. by apply (Hb ip).
Qed.

Lemma bounded_exec r tr r' : exec r tr r' → bounded r → bounded r'.
Proof.
  induction 1 as [|r0 ev r1 tr r2 Hs He IH]; [done|].
  intros Hb. apply IH. by eapply bounded_step.
Qed.

(** X2. Behind a new limiter no client ever has more than [limit] requests
    on record (none at all when the limit is not positive), however many
    requests it makes: the record of a client is bounded by the limit. *)
Theorem records_bounded_by_limit l w b tr r ip v :
  exec (NewRateLimitMiddleware l w b) tr r →
  visitors r !! ip = Some v →
  Z.of_nat (length (Requests v)) ≤ Z.max 0 l.
Proof.
  intros He Hv.
  destruct (exec_settings _ _ _ He) as (Hl & _). simpl in Hl. rewrite <- Hl.
  refine (bounded_exec _ _ _ He _ ip v Hv).
  intros ip' v'. simpl. by rewrite lookup_empty.
Qed.

Lemma records_bounded_mixed :
  ∃ v, visitors mixed_state !! "198.51.100.1" = Some v
       ∧ Z.of_nat (length (Requests v)) ≤ Z.max 0 2.
Proof.
  eexists. split; [vm_compute; reflexivity|].
  apply (records_bounded_by_limit 2 minute hour mixed_run mixed_state "198.51.100.1").
  - apply replay_exec. vm_compute. reflexivity.
  - vm_compute. reflexivity.
Defined.

(** Pruning keeps the order. *)
Lemma prune_sorted c (l : list Z) : StronglySorted Z.le l → StronglySorted Z.le (prune c l).
Proof.
  unfold prune. induction 1 as [|x l Hs IH Hx]; [constructor|].
  rewrite filter_cons. case_decide; [|done].
  constructor; [done|]. rewrite Forall_forall in Hx |- *.
  intros y Hy. apply list_elem_of_filter in Hy. apply Hx. tauto.
Qed.

Lemma ordered_mono r lo hi : lo ≤ hi → ordered r lo → ordered r hi.
Proof.
  intros Hle Ho ip v Hv. destruct (Ho ip v Hv) as (Hs & Hf). split; [done|].
  eapply Forall_impl; [exact Hf|]. simpl. intros; lia.
Qed.

Lemma ordered_step r ev r' lo hi :
  ordered r lo → step r ev r' → chrono lo [ev] hi → ordered r' hi.
Proof.
  intros Ho Hs Hc. destruct ev as [ip t1 t2 t3 d|now]; simpl in Hs, Hc.
  - destruct Hc as (? & ? & ? & ?).
    assert (StronglySorted Z.le (Requests (entry_of r ip))
            ∧ Forall (λ e, e ≤ lo) (Requests (entry_of r ip))) as (Hes & Hef).
    { unfold entry_of. destruct (visitors r !! ip) as [v|] eqn:Hv; simpl.
      - by apply (Ho ip).
      - split; constructor. }
    apply RateLimit_cases in Hs.
    destruct Hs as [(_ & -> & _) | [(_ & _ & -> & _) | (_ & _ & -> & _)]];
      [exact (ordered_mono r lo hi ltac:(lia) Ho) | |];
      intros ip' v'; simpl; (destruct (decide (ip = ip')) as [<-|Hne];
        [rewrite lookup_insert_eq; intros [= <-]; simpl
        |rewrite lookup_insert_ne by done; intros Hv';
         refine (ordered_mono r lo hi _ Ho ip' v' Hv'); lia]).
    + split; [by apply prune_sorted|].
      apply prune_Forall. eapply Forall_impl; [exact Hef|]. simpl. intros; lia.
    + split.
      * apply StronglySorted_app_2; [|by apply prune_sorted|repeat constructor].
        intros x1 x2 Hx1 Hx2. apply list_elem_of_singleton in Hx2. subst x2.
        unfold prune in Hx1. apply list_elem_of_filter in Hx1 as (_ & Hx1).
        rewrite Forall_forall in Hef. specialize (Hef _ Hx1). simpl in Hef. lia.
      * apply Forall_app. split; [|repeat constructor; lia].
        apply prune_Forall. eapply Forall_impl; [exact Hef|]. simpl. intros; lia.
  - destruct Hc as (? & ?). subst r'. intros ip v. rewrite cleanup_lookup.
    destruct (visitors r !! ip) as [v0|] eqn:Hv0; [|done].
    case_decide; [done|]. intros [= <-].
    refine (ordered_mono r lo hi _ Ho ip v0 Hv0). lia.
Qed.

(** X3. Behind a new limiter, with a clock that does not go back, the
    requests on record of every client are in time order and none is later
    than the last clock reading. *)
Theorem records_in_time_order l w b tr r hi ip v :
  exec (NewRateLimitMiddleware l w b) tr r → chrono 0 tr hi →
  visitors r !! ip = Some v →
  StronglySorted Z.le (Requests v) ∧ Forall (λ e, e ≤ hi) (Requests v).
Proof.
  intros He Hc Hv.
  assert (ordered (NewRateLimitMiddleware l w b) 0) as H0.
  { intros ip' v'. simpl. by rewrite lookup_empty. }
  revert H0 Hc. generalize 0. 
  induction He as [|r0 ev r1 tr r2 Hs He IH]; intros lo Ho Hc.
  - simpl in Hc. by apply (ordered_mono _ lo hi Hc Ho ip v).
  - assert (∃ mid, chrono lo [ev] mid ∧ chrono mid tr hi) as (mid & Hc1 & Hc2).
    { destruct ev as [ip' t1 t2 t3 d|now]; simpl in Hc |- *.
      - exists t3. repeat split; (tauto || lia).
      - exists now. repeat split; (tauto || lia). }
    apply (IH Hv mid); [|done]. by eapply ordered_step.
Qed.

Lemma records_in_time_order_mixed :
  ∃ v, visitors mixed_state !! "198.51.100.1" = Some v
       ∧ StronglySorted Z.le (Requests v) ∧ Forall (λ e, e ≤ 7 * second) (Requests v).
Proof.
  eexists. split; [vm_compute; reflexivity|].
  apply (records_in_time_order 2 minute hour mixed_run mixed_state (7 * second) "198.51.100.1").
  - apply replay_exec. vm_compute. reflexivity.
  - vm_compute. intuition discriminate.
  - vm_compute. reflexivity.
Defined.

Lemma chrono_cons_split lo ev tr hi :
  chrono lo (ev :: tr) hi → ∃ mid, lo ≤ mid ∧ chrono lo [ev] mid ∧ chrono mid tr hi.
Proof.
  destruct ev as [ip' t1 t2 t3 d|now]; simpl; intros Hc.
  - exists t3. repeat split; (tauto || lia).
  - exists now. repeat split; (tauto || lia).
Qed.

Lemma kept_or_cleaned_exec ip tr :
  ∀ r r' lo hi,
    exec r tr r' → chrono lo tr hi →
    Forall (λ ev, ¬ is_request_of ip ev) tr →
    kept_or_cleaned ip hi r r'.
Proof.
  induction tr as [|ev tr IH]; intros r r' lo hi He Hc Hq.
  - inversion He; subst. by left.
  - inversion He as [|? ? r1 ? ? Hs He']; subst.
    apply Forall_cons in Hq as [Hev Hq].
    apply chrono_cons_split in Hc as (mid & Hlm & Hc1 & Hc2).
    pose proof (chrono_le _ _ _ Hc2) as Hmh.
    specialize (IH r1 r' mid hi He' Hc2 Hq).
    assert (kept_or_cleaned ip hi r r1) as H1.
    { destruct ev as [ip' t1 t2 t3 d|now]; simpl in Hs, Hev, Hc1.
      - left. apply RateLimit_cases in Hs.
        destruct Hs as [(_ & -> & _) | [(_ & _ & -> & _) | (_ & _ & -> & _)]];
          [done | simpl; by rewrite lookup_insert_ne ..].
      - subst r1. unfold kept_or_cleaned. rewrite cleanup_lookup.
        destruct (visitors r !! ip) as [v|]; [|by left].
        destruct (decide (stale now v)); [right | by left].
        split; [done|]. exists v, now. split; [done|]. split; [done | lia]. }
    destruct IH as [Heq | (Hn & v & now & Hv & Hst & Hle)].
    + destruct H1 as [Heq1 | (Hn1 & Hex)].
      * left. congruence.
      * right. split; [congruence | done].
    + destruct H1 as [Heq1 | (Hn1 & _)].
      * right. split; [done|]. exists v, now. rewrite <- Heq1. done.
      * congruence.
Qed.

(** X4. The decision taken for a client does not depend on what happened to
    the limiter in between that was not a request of this client: requests
    of other clients, admitted or refused, and cleanup rounds. *)
Theorem decision_independent_of_other_traffic r tr r' ip lo hi t1 t2 t3 :
  exec r tr r' → chrono lo tr hi → hi ≤ t1 →
  Forall (λ ev, ¬ is_request_of ip ev) tr →
  (RateLimit r' ip t1 t2 t3).2 = (RateLimit r ip t1 t2 t3).2.
Proof.
  intros He Hc Ht Hq. rewrite !RateLimit_decision.
  destruct (exec_settings _ _ _ He) as (-> & -> & _).
  destruct (kept_or_cleaned_exec ip tr r r' lo hi He Hc Hq)
    as [-> | (-> & v & now & -> & (Hlen & Hnb) & Hle)]; [done|].
  unfold decision_on. apply nil_length_inv in Hlen. rewrite Hlen. simpl.
  rewrite (bool_decide_eq_false_2 (t1 < BlockedUntil v)) by lia. done.
Qed.

Lemma decision_independent_example :
  let t := 6500 * 1000000 in
  (RateLimit mixed_after "198.51.100.2" t t t).2
  = (RateLimit mixed_before "198.51.100.2" t t t).2.
Proof.
  apply (decision_independent_of_other_traffic mixed_before mixed_between mixed_after
           "198.51.100.2" (4 * second) (6 * second)).
  - apply replay_exec. vm_compute. reflexivity.
  - vm_compute. intuition discriminate.
  - vm_compute. discriminate.
  - repeat constructor; simpl; (discriminate || tauto).
Defined.

(** X5. While a client is blocked, nothing that happens before the block
    ends changes its record: its own attempts are not recorded and do not
    extend the block, and cleanup rounds leave the record in place. *)
Theorem attempts_during_block_change_nothing r tr r' ip v lo hi :
  exec r tr r' → chrono lo tr hi →
  visitors r !! ip = Some v → hi < BlockedUntil v →
  visitors r' !! ip = Some v.
Proof.
  intros He. revert lo. induction He as [|r0 ev r1 tr r2 Hs He IH]; intros lo Hc Hv Hb; [done|].
  apply chrono_cons_split in Hc as (mid & Hlm & Hc1 & Hc2).
  pose proof (chrono_le _ _ _ Hc2) as Hmh.
  apply (IH mid); [done | | done].
  destruct ev as [ip' t1 t2 t3 d|now]; simpl in Hs, Hc1.
  - destruct (decide (ip' = ip)) as [->|Hne].
    + rewrite RateLimit_blocked_early in Hs by (exists v; split; [done | lia]).
      by simplify_eq.
    + apply RateLimit_cases in Hs.
      destruct Hs as [(_ & -> & _) | [(_ & _ & -> & _) | (_ & _ & -> & _)]]; simpl;
        rewrite ?lookup_insert_ne by done; done.
  - subst r1. rewrite cleanup_lookup, Hv. rewrite decide_False; [done|].
    intros (_ & Hst). apply Hst. lia.
Qed.

Lemma attempts_during_block_mixed :
  visitors mixed_state !! "198.51.100.1"
  = Some (mkVisitor [1 * second; 3 * second] (4 * second + hour)).
Proof.
  apply (attempts_during_block_change_nothing mixed_before (drop 4 mixed_run) mixed_state
           "198.51.100.1" (mkVisitor [1 * second; 3 * second] (4 * second + hour))
           (4 * second) (7 * second)).
  - apply replay_exec. vm_compute. reflexivity.
  - vm_compute. intuition discriminate.
  - vm_compute. reflexivity.
  - vm_compute. reflexivity.
Defined.

End RateLimitMore.

(** ** Configuration and authentication *)

Section ConfigFacts.
Import Auth ConfigLoad.
Context (ParseFloat : string → option score).

Lemma getEnvOrDefault_nonempty env key d : d ≠ "" → getEnvOrDefault env key d ≠ "".
Proof.
  intros Hd. unfold getEnvOrDefault.
  destruct (String.eqb_spec (Getenv env key) ""); simpl; done.
Qed.

(** X7. A configuration that loads has a port, a log level and a model
    directory that are not empty, and a file size within [int64]; nothing
    else is checked: the file size may be zero or negative. *)
Theorem LoadConfig_loaded (env : gmap string string) (cfg : Config.t) :
  LoadConfig ParseFloat env = inr cfg →
  Config.Port cfg ≠ "" ∧ Config.LogLevel cfg ≠ "" ∧ Config.ModelDir cfg ≠ ""
  ∧ Go.minInt64 ≤ Config.MaxFileSizeMB cfg ≤ Go.maxInt64
  ∧ ParseInt (getEnvOrDefault env "MAX_FILE_SIZE_MB" "10") = Some (Config.MaxFileSizeMB cfg).
Proof.
  unfold LoadConfig. intros H.
  destruct (ParseFloat _) as [thr|]; [|done].
  destruct (ParseInt _) as [size|] eqn:Hsize; [|done].
  destruct (ParseBool _) as [gpu|]; [|done].
  simplify_eq. simpl.
  split; [by apply getEnvOrDefault_nonempty|].
  split; [by apply getEnvOrDefault_nonempty|].
  split; [by apply getEnvOrDefault_nonempty|].
  split; [|done].
  unfold ParseInt in Hsize.
  destruct (match getEnvOrDefault env "MAX_FILE_SIZE_MB" "10" with
            | String c rest => _ | _ => _ end) as [n|]; [|done].
  destruct (Z.leb_spec Go.minInt64 n), (Z.leb_spec n Go.maxInt64); simpl in Hsize;
    simplify_eq; lia.
Qed.

(** X8. With no API key configured (the variable not set, or empty) the
    configuration still loads, and then every request to a path other than
    [/health] and [/metrics] is refused with 401, whatever key it carries. *)
Theorem no_api_key_refuses_everyone (env : gmap string string) (cfg : Config.t)
    (path apiKey : string) :
  Getenv env "API_KEY" = "" →
  LoadConfig ParseFloat env = inr cfg →
  path ≠ "/health" → path ≠ "/metrics" →
  ∃ message, AuthRequired cfg path apiKey = Unauthorized message.
Proof.
  intros Hkey Hload Hh Hm.
  assert (Config.APIKey cfg = "") as Hcfg.
  { unfold LoadConfig in Hload.
    destruct (ParseFloat _); [|done]. destruct (ParseInt _); [|done].
    destruct (ParseBool _); [|done]. simplify_eq. simpl.
    unfold getEnvOrDefault. rewrite Hkey. done. }
  unfold AuthRequired. rewrite Hcfg.
  destruct (String.eqb_spec path "/health"); [done|].
  destruct (String.eqb_spec path "/metrics"); [done|]. simpl.
  destruct (String.eqb_spec apiKey ""); simpl; eauto.
Qed.

End ConfigFacts.

Section ConfigScenario.
Import Auth ConfigLoad.

Lemma LoadConfig_loaded_sample :
  let cfg := Config.mk "9000" "" (QArith_base.Qmake 7 10) 10 false "info" "/srv/models" in
  Config.Port cfg ≠ "" ∧ Config.LogLevel cfg ≠ "" ∧ Config.ModelDir cfg ≠ ""
  ∧ Go.minInt64 ≤ Config.MaxFileSizeMB cfg ≤ Go.maxInt64
  ∧ ParseInt (getEnvOrDefault sample_env "MAX_FILE_SIZE_MB" "10")
    = Some (Config.MaxFileSizeMB cfg).
Proof.
  apply (LoadConfig_loaded parse_tenths sample_env).
  vm_compute. reflexivity.
Defined.

Lemma no_api_key_refuses_scan :
  let cfg := Config.mk "9000" "" (QArith_base.Qmake 7 10) 10 false "info" "/srv/models" in
  ∃ message, AuthRequired cfg "/scan" "guess" = Unauthorized message.
Proof.
  apply (no_api_key_refuses_everyone parse_tenths sample_env).
  - vm_compute. reflexivity.
  - vm_compute. reflexivity.
  - discriminate.
  - discriminate.
Defined.

End ConfigScenario.

(** ** Acquisition: the size ceiling, the fetch, the prefix *)

Section AcquisitionMore.
Import Runtime Go Services Scenarios.
Context (E : Env).

Lemma maxBytes_exact cfg :
  0 ≤ Config.MaxFileSizeMB cfg < 2 ^ 43 →
  maxBytes cfg = Config.MaxFileSizeMB cfg * 1048576.
Proof.
  intros H. unfold maxBytes.
  rewrite (wrap64_small (Config.MaxFileSizeMB cfg * 1024))
    by (unfold minInt64, maxInt64; lia).
  rewrite wrap64_small by (unfold minInt64, maxInt64; lia). lia.
Qed.

Lemma maxBytes_negative cfg :
  - 2 ^ 43 ≤ Config.MaxFileSizeMB cfg < 0 → maxBytes cfg < 0.
Proof.
  intros H. unfold maxBytes.
  rewrite (wrap64_small (Config.MaxFileSizeMB cfg * 1024))
    by (unfold minInt64, maxInt64; lia).
  rewrite wrap64_small by (unfold minInt64, maxInt64; lia). lia.
Qed.

(** Whatever is acquired is within [maxBytes]. *)
Lemma getImageData_within cfg base64Str urlStr w data :
  (getImageData E cfg base64Str urlStr w).1 = Ok data →
  Z.of_nat (len data) ≤ maxBytes cfg.
Proof.
  unfold getImageData.
  destruct (nonempty base64Str); [|destruct (nonempty urlStr); [|by unfold ret]].
  - unfold base64ToBytes, bind, emit, ret.
    destruct (DecodeString _) as [d|]; [|done].
    destruct (Z.ltb_spec (maxBytes cfg) (Z.of_nat (len d))); simpl; [done|].
    intros [= <-]. done.
  - unfold urlToBytes, bind, emit, ret.
    destruct (httpGet E urlStr) as [| |status cl body readOk]; simpl; [done..|].
    destruct (negb (status =? 200)); simpl; [done|].
    destruct (_ <? cl); simpl; [done|].
    destruct (negb readOk); simpl; [done|].
    match goal with
    | |- context [?a <? ?b] => destruct (Z.ltb_spec a b); simpl; [done|]
    end.
    intros [= <-]. done.
Qed.

(** X9. With a file size of [MB] megabytes, between 0 and 2^43, no payload
    of more than [MB * 1048576] bytes is ever handed on, inline or fetched. *)
Theorem acquired_payload_within_ceiling cfg base64Str urlStr w data :
  0 ≤ Config.MaxFileSizeMB cfg < 2 ^ 43 →
  (getImageData E cfg base64Str urlStr w).1 = Ok data →
  Z.of_nat (length (bytes data)) ≤ Config.MaxFileSizeMB cfg * 1048576.
Proof.
  intros Hmb Hok. apply getImageData_within in Hok.
  rewrite maxBytes_exact in Hok by done.
  unfold bytes. rewrite length_take. lia.
Qed.

(** X10. A file size of [MB] megabytes with [- 2^43 <= MB < 0], which the
    configuration accepts, makes every acquisition fail: no image source
    gives a payload.  The bound is needed: below it the product
    [MB * 1024 * 1024] wraps around in [int64] and the ceiling need not be
    negative. *)
Theorem negative_ceiling_refuses_all cfg base64Str urlStr w :
  - 2 ^ 43 ≤ Config.MaxFileSizeMB cfg < 0 →
  match (getImageData E cfg base64Str urlStr w).1 with
  | Ok _ => False
  | Err _ => True
  | Panic => False
  end.
Proof.
  intros Hmb. pose proof (getImageData_within cfg base64Str urlStr w) as Hin.
  pose proof (maxBytes_negative cfg Hmb).
  destruct (getImageData E cfg base64Str urlStr w) as [[data|e|] w'] eqn:Hg; simpl in *.
  - specialize (Hin data eq_refl). lia.
  - done.
  - revert Hg. unfold getImageData, base64ToBytes, urlToBytes, bind, emit, ret.
    repeat case_match; discriminate.
Qed.

End AcquisitionMore.

Section AcquisitionMoreScenario.
Import Runtime Go Services Scenarios MoreScenarios.

Lemma acquired_payload_within_ceiling_small :
  Z.of_nat (length (bytes (ReadAll small_image))) ≤ Config.MaxFileSizeMB default_config * 1048576.
Proof.
  apply (acquired_payload_within_ceiling all_models default_config ""
           "https://img.example/ok.png" (fresh all_models default_config)).
  - vm_compute. split; discriminate || reflexivity.
  - vm_compute. reflexivity.
Defined.

Lemma negative_ceiling_refuses_small :
  match (getImageData all_models negative_ceiling small_image_base64 ""
           (fresh all_models negative_ceiling)).1 with
  | Ok _ => False
  | Err _ => True
  | Panic => False
  end.
Proof.
  apply (negative_ceiling_refuses_all all_models negative_ceiling).
  vm_compute. split; discriminate || reflexivity.
Defined.

End AcquisitionMoreScenario.

Section AcquisitionOutcomes.
Import Runtime Go Services Scenarios.
Context (E : Env).

(** X11. An inline payload that decodes to more than the ceiling makes the
    single scan fail with the too-large error before any inference: the text
    is decoded, nothing else is done, and the bucket keeps its tokens. *)
Theorem oversized_inline_fails_before_inference ctx req w data :
  modelExists (service w) (ScanRequest.Model req) = true →
  nonempty (ScanRequest.ImageBase64 req) = true →
  DecodeString (default (ScanRequest.ImageBase64 req)
                        (after_comma (ScanRequest.ImageBase64 req))) = Some data →
  maxBytes (NSFWService.config (service w)) < Z.of_nat (len data) →
  (ScanImage E ctx req w).1
    = Err (ErrGetImageData
             (ErrPayloadTooLarge (Config.MaxFileSizeMB (NSFWService.config (service w)))))
  ∧ effects (ScanImage E ctx req w).2
    = effects w ++ [EffDecodeBase64 (ScanRequest.ImageBase64 req)]
  ∧ NSFWService.onnxService (service (ScanImage E ctx req w).2)
    = NSFWService.onnxService (service w).
Proof.
  intros Hm Hb Hd Hsz.
  unfold ScanImage, ScanImage_body, getImageData, base64ToBytes, bind, now, since, on_stats,
    get_service, emit, ret. simpl.
  rewrite Hm, Hb, Hd. simpl.
  destruct (Z.ltb_spec (maxBytes (NSFWService.config (service w))) (Z.of_nat (len data)));
    [|lia]. done.
Qed.

(** X12. A fetch gives a payload only for a response with status 200, a
    declared length within the ceiling and a body that is read to its end
    and is within the ceiling; the payload is then the body, byte for byte. *)
Theorem fetched_payload_is_the_body cfg url w data :
  (urlToBytes E cfg url w).1 = Ok data →
  ∃ contentLength body,
    httpGet E url = HttpResponse 200 contentLength body true
    ∧ contentLength ≤ maxBytes cfg
    ∧ Z.of_nat (length body) ≤ maxBytes cfg
    ∧ bytes data = body.
Proof.
  unfold urlToBytes, bind, emit, ret.
  destruct (httpGet E url) as [| |status cl body readOk]; simpl; [done..|].
  destruct (Z.eqb_spec status 200) as [->|]; simpl; [|done].
  destruct (Z.ltb_spec (maxBytes cfg) cl); simpl; [done|].
  destruct readOk; simpl; [|done].
  match goal with
  | |- context [?a <? ?b] => destruct (Z.ltb_spec a b) as [|Hlen]; simpl; [done|]
  end.
  intros [= <-]. rewrite length_take in Hlen.
  assert (maxBytes cfg ≠ maxInt64) as Hodd.
  { unfold maxBytes, wrap64 at 1, maxInt64.
    generalize (wrap64 (Config.MaxFileSizeMB cfg * 1024)). intros x.
    pose proof (Z.div_mod (x * 1024 + 2 ^ 63) (2 ^ 64) ltac:(lia)) as Hdm.
    pose proof (Z.mod_pos_bound (x * 1024 + 2 ^ 63) (2 ^ 64) ltac:(lia)) as Hbd.
    revert Hdm Hbd.
    generalize ((x * 1024 + 2 ^ 63) `div` 2 ^ 64), ((x * 1024 + 2 ^ 63) `mod` 2 ^ 64).
    change (2 ^ 64) with 18446744073709551616.
    change (2 ^ 63) with 9223372036854775808.
    intros qq rr Hdm Hbd. lia. }
  pose proof (wrap64_range (wrap64 (Config.MaxFileSizeMB cfg * 1024) * 1024)) as Hr.
  fold (maxBytes cfg) in Hr. unfold minInt64, maxInt64 in *.
  assert (0 ≤ maxBytes cfg) by lia.
  rewrite wrap64_small in Hlen by (unfold minInt64, maxInt64; lia).
  assert (length body ≤ Z.to_nat (maxBytes cfg + 1))%nat as Hb by lia.
  exists cl, body. split; [done|]. split; [done|]. split; [lia|].
  unfold bytes, ReadAll. simpl.
  rewrite wrap64_small by (unfold minInt64, maxInt64; lia).
  rewrite (take_ge body) by lia.
  rewrite take_app_length. done.
Qed.

Lemma after_comma_app prefix text :
  after_comma prefix = None → after_comma (prefix ++ "," ++ text) = Some text.
Proof.
  induction prefix as [|c p IH]; simpl; [done|].
  destruct (Ascii.eqb c ","); [done | exact IH].
Qed.

(** X13. Of an inline text only what follows the first comma is decoded:
    with a prefix such as [data:image/png;base64] before the comma the
    payload is the one of the bare text. *)
Theorem data_uri_prefix_is_stripped cfg prefix text w :
  after_comma prefix = None → after_comma text = None →
  (base64ToBytes cfg (prefix ++ "," ++ text) w).1 = (base64ToBytes cfg text w).1.
Proof.
  intros Hp Ht. unfold base64ToBytes, bind, emit, ret.
  rewrite (after_comma_app prefix text Hp), Ht. simpl.
  destruct (DecodeString text); [case_match|]; done.
Qed.

End AcquisitionOutcomes.

Section AcquisitionOutcomesScenario.
Import Runtime Go Services Scenarios MoreScenarios.

Lemma oversized_inline_small_image :
  let w := fresh all_models zero_ceiling in
  (ScanImage all_models Background scan_short_inline w).1
    = Err (ErrGetImageData (ErrPayloadTooLarge 0))
  ∧ effects (ScanImage all_models Background scan_short_inline w).2
    = effects w ++ [EffDecodeBase64 small_image_base64]
  ∧ NSFWService.onnxService (service (ScanImage all_models Background scan_short_inline w).2)
    = NSFWService.onnxService (service w).
Proof.
  apply (oversized_inline_fails_before_inference all_models Background scan_short_inline
           (fresh all_models zero_ceiling) (mkSlice (small_image ++ [Byte.x00]) 68)).
  - vm_compute. reflexivity.
  - vm_compute. reflexivity.
  - vm_compute. reflexivity.
  - vm_compute. reflexivity.
Defined.

Lemma fetched_payload_small_image :
  ∃ contentLength body,
    web "https://img.example/ok.png" = HttpResponse 200 contentLength body true
    ∧ contentLength ≤ maxBytes default_config
    ∧ Z.of_nat (length body) ≤ maxBytes default_config
    ∧ bytes (ReadAll small_image) = body.
Proof.
  apply (fetched_payload_is_the_body all_models default_config "https://img.example/ok.png"
           (fresh all_models default_config)).
  vm_compute. reflexivity.
Defined.

Lemma data_uri_small_image :
  let w := fresh all_models default_config in
  (base64ToBytes default_config small_image_data_uri w).1
  = (base64ToBytes default_config small_image_base64 w).1.
Proof.
  apply (data_uri_prefix_is_stripped default_config "data:image/png;base64" small_image_base64).
  - vm_compute. reflexivity.
  - vm_compute. reflexivity.
Defined.

End AcquisitionOutcomesScenario.

(** ** Inference *)

Section InferenceMore.
Import Runtime Go Services Scenarios MoreScenarios.
Context (E : Env).

Lemma postprocess_fixed_outputs cfg m :
  ∃ r, postprocess cfg m [q 3 10; q 7 10] = Some r.
Proof.
  unfold postprocess. destruct (ONNXModel.Processing_ m); simpl; eauto.
Qed.

(** X14. For a registered model a call of [RunInference] ends in one of
    three ways.  Its context is done: it fails with the error of the context,
    takes no token and starts no inference.  The context is not done and the
    bucket is empty: it fails with the rate-limit error and the bucket is as
    before.  Otherwise it succeeds, with the name of the model and the time
    between its first and its last clock reading in the response. *)
Theorem RunInference_outcomes ctx modelName imageData w :
  is_Some (ONNXRuntimeService.models (NSFWService.onnxService (service w)) !! modelName) →
  let out := RunInference E ctx modelName imageData w in
  match out.1 with
  | Ok r =>
      ctx (S (ticks w)) = false
      ∧ token_available w (clock E (S (ticks w))) = true
      ∧ ScanResponse.Model r = modelName
      ∧ ScanResponse.ProcessingTimeMs r
        = Milliseconds (clock E (S (S (ticks w))) - clock E (ticks w))
      ∧ effects out.2 = effects w ++ [EffInference modelName]
  | Err e =>
      (e = ErrContext ∧ ctx (S (ticks w)) = true
       ∧ effects out.2 = effects w ∧ limiter_of out.2 = limiter_of w)
      ∨ (e = ErrRateLimitExceeded ∧ ctx (S (ticks w)) = false
         ∧ token_available w (clock E (S (ticks w))) = false
         ∧ limiter_of out.2 = limiter_of w)
  | Panic => False
  end.
Proof.
  intros [m Hm].
  unfold RunInference, preprocessAndRunInference, bind, now, since, emit, get_onnx, get_ticks,
    set_limiter, ret, token_available, limiter_of. simpl.
  destruct (ctx (S (ticks w))) eqn:Hctx; simpl; [left; done|].
  destruct (Rate.Allow _ _) as [[] lim] eqn:Hal; simpl.
  - rewrite Hm. simpl.
    destruct (stdinDecodes E _); simpl; [|done].
    destruct (postprocess_fixed_outputs
                (ONNXRuntimeService.config (NSFWService.onnxService (service w))) m)
      as (r & ->). simpl. done.
  - right. repeat split; try done.
    unfold Rate.Allow in Hal. case_match; simplify_eq. done.
Qed.

(** X15. The outcome of an inference is the same whatever the bytes of the
    image: the scores are fixed by the model and by standard input.  The
    response of an inference that succeeds gives as confidence the larger
    of its two scores. *)
Theorem inference_response_shape ctx modelName imageData w :
  (∀ otherData,
     RunInference E ctx modelName otherData w = RunInference E ctx modelName imageData w)
  ∧ match (RunInference E ctx modelName imageData w).1 with
    | Ok r =>
        QArith_base.Qle (ScanResponse.NSFWScore r) (ScanResponse.Confidence r)
        ∧ QArith_base.Qle (ScanResponse.SafeScore r) (ScanResponse.Confidence r)
        ∧ (ScanResponse.Confidence r = ScanResponse.NSFWScore r
           ∨ ScanResponse.Confidence r = ScanResponse.SafeScore r)
    | _ => True
    end.
Proof.
  split; [done|].
  unfold RunInference, preprocessAndRunInference, bind, now, since, emit, get_onnx, get_ticks,
    set_limiter, ret. simpl.
  destruct (ctx _); simpl; [done|].
  destruct (Rate.Allow _ _) as [[] lim]; simpl; [|done].
  destruct (ONNXRuntimeService.models _ !! modelName) as [m|]; simpl; [|done].
  destruct (stdinDecodes E _); simpl.
  - unfold postprocess. destruct (ONNXModel.Processing_ m); simpl;
      unfold QArith_base.Qle; simpl; repeat split; (lia || eauto).
  - unfold QArith_base.Qle; simpl; repeat split; (lia || eauto).
Qed.

End InferenceMore.

Section InferenceMoreScenario.
Import Runtime Go Services Scenarios MoreScenarios.

Lemma RunInference_outcomes_cancelled :
  let w := fresh all_models default_config in
  let out := RunInference all_models cancelled "NudeNet-640m" (ReadAll small_image) w in
  match out.1 with
  | Ok r =>
      cancelled (S (ticks w)) = false
      ∧ token_available w (clock all_models (S (ticks w))) = true
      ∧ ScanResponse.Model r = "NudeNet-640m"
      ∧ ScanResponse.ProcessingTimeMs r
        = Milliseconds (clock all_models (S (S (ticks w))) - clock all_models (ticks w))
      ∧ effects out.2 = effects w ++ [EffInference "NudeNet-640m"]
  | Err e =>
      (e = ErrContext ∧ cancelled (S (ticks w)) = true
       ∧ effects out.2 = effects w ∧ limiter_of out.2 = limiter_of w)
      ∨ (e = ErrRateLimitExceeded ∧ cancelled (S (ticks w)) = false
         ∧ token_available w (clock all_models (S (ticks w))) = false
         ∧ limiter_of out.2 = limiter_of w)
  | Panic => False
  end.
Proof.
  apply (RunInference_outcomes all_models cancelled "NudeNet-640m" (ReadAll small_image)
           (fresh all_models default_config)).
  vm_compute. eauto.
Defined.

End InferenceMoreScenario.

(** ** The registry *)

Section RegistryFacts.
Import Runtime Go Services Handlers Scenarios.
Context (E : Env).

(** X16. The registry of a new service holds exactly the four known models
    whose file exists in the model directory, each under its name, with the
    path of its file, the two NudeNet models marked for detection. *)
Theorem registry_is_known_models_on_disk cfg name :
  ONNXRuntimeService.models (NewONNXRuntimeService E cfg) !! name
  = let path := filepath_Join (Config.ModelDir cfg) (name ++ ".onnx") in
    if existsb (String.eqb name) (modelFiles.*1) && statOk E path
    then Some (ONNXModel.mk name path (processingFor name))
    else None.
Proof.
  unfold NewONNXRuntimeService, Onnx.loadModels, modelFiles.
  cbn [foldl fst snd ONNXRuntimeService.models fmap list_fmap existsb].
  destruct (String.eqb_spec name "mobilenetv2-7") as [->|N1];
  [|destruct (String.eqb_spec name "nsfw_squeezenet") as [->|N2];
  [|destruct (String.eqb_spec name "NudeNet-320n") as [->|N3];
  [|destruct (String.eqb_spec name "NudeNet-640m") as [->|N4]]]];
  cbv zeta; cbn [orb andb app];
  try change ("mobilenetv2-7" +:+ ".onnx") with "mobilenetv2-7.onnx";
  try change ("nsfw_squeezenet" +:+ ".onnx") with "nsfw_squeezenet.onnx";
  try change ("NudeNet-320n" +:+ ".onnx") with "NudeNet-320n.onnx";
  try change ("NudeNet-640m" +:+ ".onnx") with "NudeNet-640m.onnx";
  repeat match goal with
  | |- context [statOk E ?p] => destruct (statOk E p) eqn:?
  end;
  rewrite ?lookup_insert_ne by done; rewrite ?lookup_insert_eq, ?lookup_empty; done.
Qed.

Lemma modelExists_lookup (s : NSFWService.t) model :
  modelExists s model = true
  ↔ is_Some (ONNXRuntimeService.models (NSFWService.onnxService s) !! model).
Proof.
  unfold modelExists, GetLoadedModels. rewrite existsb_exists. split.
  - intros (n & Hin & Heq). apply String.eqb_eq in Heq. subst n.
    apply list_elem_of_In, list_elem_of_fmap in Hin as ([k v] & -> & Hin).
    apply elem_of_map_to_list in Hin. simpl. eauto.
  - intros (m & Hm). exists model. split; [|apply String.eqb_refl].
    apply list_elem_of_In, list_elem_of_fmap. exists (model, m). split; [done|].
    by apply elem_of_map_to_list.
Qed.

Lemma IsReady_lookup (s : NSFWService.t) :
  IsReady s = true
  ↔ ∃ name, is_Some (ONNXRuntimeService.models (NSFWService.onnxService s) !! name).
Proof.
  unfold IsReady. rewrite bool_decide_eq_true. split.
  - intros Hlen.
    destruct (GetLoadedModels (NSFWService.onnxService s)) as [|n l] eqn:Hl;
      [simpl in Hlen; lia|].
    exists n. apply modelExists_lookup. unfold modelExists. rewrite Hl. simpl.
    by rewrite String.eqb_refl.
  - intros (name & Hs). apply modelExists_lookup in Hs. unfold modelExists in Hs.
    destruct (GetLoadedModels (NSFWService.onnxService s)); [done | simpl; lia].
Qed.

(** X17. A new service is ready, and [main] goes on to serve, exactly when
    the file of at least one of the four known models exists; otherwise
    [main] stops with a fatal error. *)
Theorem ready_iff_some_model_file cfg :
  (IsReady (NewNSFWService E cfg) = true
   ↔ ∃ entry, entry ∈ modelFiles
              ∧ statOk E (filepath_Join (Config.ModelDir cfg) entry.2) = true)
  ∧ ((∃ s h, main E cfg = Serving s h) ↔ IsReady (NewNSFWService E cfg) = true).
Proof.
  split.
  - rewrite IsReady_lookup. cbn [NewNSFWService NSFWService.onnxService]. split.
    + intros (name & m & Hm). rewrite registry_is_known_models_on_disk in Hm.
      cbv zeta in Hm.
      destruct (existsb _ _) eqn:Hex; [|done]. cbn [andb] in Hm.
      destruct (statOk E _) eqn:Hst; [|done].
      apply existsb_exists in Hex as (k & Hin & Hk). apply String.eqb_eq in Hk. subst k.
      apply list_elem_of_In, list_elem_of_fmap in Hin as ([k f] & -> & Hin).
      exists (k, f). split; [done|]. cbn [fst snd] in *.
      unfold modelFiles in Hin.
      repeat (apply elem_of_cons in Hin as [Hin|Hin]; [by simplify_eq|]).
      by apply elem_of_nil in Hin.
    + intros ([k f] & Hin & Hst). cbn [snd] in Hst. exists k.
      rewrite registry_is_known_models_on_disk. cbv zeta.
      unfold modelFiles in Hin.
      repeat (apply elem_of_cons in Hin as [Hin|Hin];
              [simplify_eq;
               match goal with
               | |- context [existsb ?f ?l] => change (existsb f l) with true
               end; cbn [andb];
               try change ("mobilenetv2-7" +:+ ".onnx") with "mobilenetv2-7.onnx";
               try change ("nsfw_squeezenet" +:+ ".onnx") with "nsfw_squeezenet.onnx";
               try change ("NudeNet-320n" +:+ ".onnx") with "NudeNet-320n.onnx";
               try change ("NudeNet-640m" +:+ ".onnx") with "NudeNet-640m.onnx";
               rewrite Hst; eauto|]).
      by apply elem_of_nil in Hin.
  - unfold main. destruct (IsReady _); simpl; split; eauto; try done.
    intros (? & ? & ?). done.
Qed.

(** X18. A model that passes the check of a single scan is the key of an
    entry of the registry, so the inference that follows never fails for a
    model that is not found. *)
Theorem checked_model_is_found ctx req w :
  match (ScanImage E ctx req w).1 with
  | Err (ErrInference (ErrOnnxModelNotFound _)) => False
  | _ => True
  end.
Proof.
  unfold ScanImage, ScanImage_body, bind, now, since, on_stats, get_service, ret. simpl.
  destruct (modelExists _ _) eqn:Hm; simpl; [|done].
  apply modelExists_lookup in Hm as (m & Hm).
  pose proof (getImageData_frame E (NSFWService.config (service w))
                (ScanRequest.ImageBase64 req) (ScanRequest.ImageURL req)
                (mkWorld (service w) (S (ticks w)) (effects w))) as (Hs & _).
  destruct (getImageData E _ _ _ _) as [[imgData|e|] w1]; simpl in *; [|done..].
  destruct (slice_to imgData 512); simpl; [|done].
  destruct (decodeConfigOk E _); simpl; [|done].
  unfold RunInference, preprocessAndRunInference, bind, now, since, emit, get_onnx, get_ticks,
    set_limiter, ret. simpl.
  destruct (ctx _); simpl; [done|].
  destruct (Rate.Allow _ _) as [[] lim]; simpl; [|done].
  rewrite Hs, Hm. simpl.
  destruct (stdinDecodes E _); simpl; [|done].
  destruct (postprocess _ _ _); done.
Qed.

End RegistryFacts.

(** ** The three entry points *)

Section EntryPoints.
Import Runtime Go Services Scenarios MoreScenarios.
Context (E : Env).

Lemma RunInference_fixed ctx modelName imageData w :
  fixed_part (RunInference E ctx modelName imageData w).2 = fixed_part w.
Proof.
  unfold RunInference, preprocessAndRunInference, bind, now, since, emit, get_onnx, get_ticks,
    set_limiter, ret, fixed_part. simpl.
  destruct (ctx _); simpl; [done|].
  destruct (Rate.Allow _ _) as [[] lim]; simpl; [|done].
  destruct (ONNXRuntimeService.models _ !! modelName) as [m|]; simpl; [|done].
  destruct (stdinDecodes E _); simpl; [|done].
  destruct (postprocess _ _ _); done.
Qed.

Lemma getImageData_fixed cfg base64Str urlStr w :
  fixed_part (getImageData E cfg base64Str urlStr w).2 = fixed_part w.
Proof.
  destruct (getImageData_frame E cfg base64Str urlStr w) as (Hs & _).
  unfold fixed_part. by rewrite Hs.
Qed.

Lemma on_stats_fixed f w : fixed_part (on_stats f w).2 = fixed_part w.
Proof. done. Qed.

Lemma ScanImage_fixed ctx req w : fixed_part (ScanImage E ctx req w).2 = fixed_part w.
Proof.
  unfold ScanImage, ScanImage_body, bind, now, since, get_service, ret. simpl.
  destruct (modelExists _ _); simpl; [|done].
  pose proof (getImageData_fixed (NSFWService.config (service w))
                (ScanRequest.ImageBase64 req) (ScanRequest.ImageURL req)
                (mkWorld (service w) (S (ticks w)) (effects w))) as Hg.
  destruct (getImageData E _ _ _ _) as [[imgData|e|] w1]; simpl in *; [|done..].
  destruct (slice_to imgData 512); simpl; [|done].
  destruct (decodeConfigOk E _); simpl; [|done].
  pose proof (RunInference_fixed ctx (ScanRequest.Model req) imgData w1) as Hr.
  destruct (RunInference E ctx _ imgData w1) as [[r|e|] w2]; unfold on_stats, emit, ret, fixed_part in *; simpl in *; congruence.
Qed.

Lemma DetectImage_fixed ctx req w : fixed_part (DetectImage E ctx req w).2 = fixed_part w.
Proof.
  unfold DetectImage, DetectImage_body, bind, now, since, get_service, ret. simpl.
  destruct (detectionModelExists _ _); simpl; [|done].
  pose proof (getImageData_fixed (NSFWService.config (service w))
                (ScanRequest.ImageBase64 req) (ScanRequest.ImageURL req)
                (mkWorld (service w) (S (ticks w)) (effects w))) as Hg.
  destruct (getImageData E _ _ _ _) as [[imgData|e|] w1]; simpl in *; [|done..].
  pose proof (RunInference_fixed ctx (ScanRequest.Model req) imgData w1) as Hr.
  destruct (RunInference E ctx _ imgData w1) as [[r|e|] w2]; unfold on_stats, emit, ret, fixed_part in *; simpl in *; congruence.
Qed.

Lemma batchItem_fixed ctx model imgReq w :
  fixed_part (batchItem E ctx model imgReq w).2 = fixed_part w.
Proof.
  unfold batchItem, bind, now, get_service. simpl.
  change (if nonempty (BatchImageItem.ImageBase64 imgReq) then _ else _)
    with (getImageData E (NSFWService.config (service w))
            (BatchImageItem.ImageBase64 imgReq) (BatchImageItem.ImageURL imgReq)).
  pose proof (getImageData_fixed (NSFWService.config (service w))
                (BatchImageItem.ImageBase64 imgReq) (BatchImageItem.ImageURL imgReq)
                (mkWorld (service w) (S (ticks w)) (effects w))) as Hg.
  destruct (getImageData E _ _ _ _) as [[imgData|e|] w1]; simpl in *; [|done..].
  pose proof (RunInference_fixed ctx model imgData w1) as Hr.
  destruct (RunInference E ctx model imgData w1) as [[r|e|] w2]; unfold on_stats, emit, ret, fixed_part in *; simpl in *; congruence.
Qed.

Lemma batchLoop_fixed ctx model images :
  ∀ results w, fixed_part (batchLoop E ctx model images results w).2 = fixed_part w.
Proof.
  induction images as [|imgReq rest IH]; intros results w; simpl; [done|].
  unfold bind. pose proof (batchItem_fixed ctx model imgReq w) as Hi.
  destruct (batchItem E ctx model imgReq w) as [r w1]. simpl in Hi.
  rewrite IH. done.
Qed.

Lemma ScanBatch_fixed ctx req w : fixed_part (ScanBatch E ctx req w).2 = fixed_part w.
Proof.
  unfold ScanBatch, ScanBatch_body, bind, now, since, get_service, on_stats, ret. simpl.
  destruct (modelExists _ _); simpl; [|done].
  pose proof (batchLoop_fixed ctx (BatchScanRequest.Model req) (BatchScanRequest.Images req) []
                (mkWorld (service w) (S (ticks w)) (effects w))) as Hb.
  destruct (batchLoop E ctx _ _ [] _) as [results w1]. simpl in *. done.
Qed.

(** X19. The settings and the registry of a service are set once: no single
    scan, batch scan or detection changes them, however it ends. *)
Theorem registry_and_settings_never_change ctx req breq w :
  fixed_part (ScanImage E ctx req w).2 = fixed_part w
  ∧ fixed_part (ScanBatch E ctx breq w).2 = fixed_part w
  ∧ fixed_part (DetectImage E ctx req w).2 = fixed_part w.
Proof.
  split; [apply ScanImage_fixed|]. split; [apply ScanBatch_fixed | apply DetectImage_fixed].
Qed.

Lemma detectionModelExists_le s model :
  modelExists s model = false → detectionModelExists s model = false.
Proof.
  unfold modelExists, detectionModelExists.
  induction (GetLoadedModels _) as [|n l IH]; [done|]. simpl.
  intros [Hn Hl]%orb_false_elim. by rewrite Hn, IH.
Qed.

(** X20. A model that is not registered: the single scan fails with the
    error of the model not found, the detection with the error of the
    unsupported operation; neither decodes, fetches or infers anything, and
    both record the call as one scan. *)
Theorem unregistered_model_single ctx req w :
  modelExists (service w) (ScanRequest.Model req) = false →
  (ScanImage E ctx req w).1 = Err (ErrModelNotFound (ScanRequest.Model req))
  ∧ (DetectImage E ctx req w).1 = Err (ErrUnsupportedOperation (ScanRequest.Model req))
  ∧ effects (ScanImage E ctx req w).2 = effects w
  ∧ effects (DetectImage E ctx req w).2 = effects w
  ∧ total_scans (ScanImage E ctx req w).2 = wrap64 (total_scans w + 1)
  ∧ total_scans (DetectImage E ctx req w).2 = wrap64 (total_scans w + 1).
Proof.
  intros Hm. pose proof (detectionModelExists_le _ _ Hm) as Hd.
  unfold ScanImage, ScanImage_body, DetectImage, DetectImage_body, bind, now, since,
    get_service, on_stats, ret, total_scans. simpl.
  rewrite Hm, Hd. simpl. done.
Qed.

(** X21. A batch on a model that is not registered fails as a whole with the
    error of the model not found: no item is looked at, nothing is logged
    and the statistics stay as they are. *)
Theorem unregistered_model_batch ctx breq w :
  modelExists (service w) (BatchScanRequest.Model breq) = false →
  (ScanBatch E ctx breq w).1 = Err (ErrModelNotFound (BatchScanRequest.Model breq))
  ∧ effects (ScanBatch E ctx breq w).2 = effects w
  ∧ stats_of (ScanBatch E ctx breq w).2 = stats_of w.
Proof.
  intros Hm.
  unfold ScanBatch, ScanBatch_body, bind, now, since, get_service, ret, stats_of. simpl.
  rewrite Hm. simpl. done.
Qed.

End EntryPoints.

(** ** Readiness for as long as the process serves *)

Section ReadinessWhileServing.
Import Runtime Go Services Handlers Scenarios MoreScenarios.
Context (E : Env).

(** What the registry lists does not change with the settings and the maps. *)
Lemma listed_fixed (w w' : World) :
  fixed_part w' = fixed_part w →
  GetLoadedModels (NSFWService.onnxService (service w'))
  = GetLoadedModels (NSFWService.onnxService (service w)).
Proof. unfold fixed_part, GetLoadedModels. intros [= _ _ _ ->]. done. Qed.

(** C3.  The readiness endpoint is served and reports ready if and only if
    the registry lists at least one model.  With zero models registered
    [main] stops with a fatal error before any route is served, so nothing
    reports ready; where [/ready] is served the registry is not empty and
    the handler reports ready.  No single scan, batch scan or detection
    changes what the registry lists, so this holds for as long as the
    process serves. *)
Theorem ready_iff_registry_lists_a_model (cfg : Config.t) :
  let registered := GetLoadedModels (NSFWService.onnxService (NewNSFWService E cfg)) in
  ((∃ s h, main E cfg = Serving s h ∧ s = NewNSFWService E cfg
           ∧ reports_ready (Ready h) = true)
   ↔ (0 < length registered)%nat)
  ∧ match main E cfg with
    | Serving s h => reports_ready (Ready h) = true ∧ IsReady s = true
    | Fatal _ => registered = [] ∧ IsReady (NewNSFWService E cfg) = false
    end
  ∧ ∀ ctx req breq w,
      let listed v := GetLoadedModels (NSFWService.onnxService (service v)) in
      listed (ScanImage E ctx req w).2 = listed w
      ∧ listed (ScanBatch E ctx breq w).2 = listed w
      ∧ listed (DetectImage E ctx req w).2 = listed w.
Proof.
  intros registered. pose proof (main_gate E cfg) as Hg. split; [|split].
  - split.
    + intros (s & h & Hm & -> & _). rewrite Hm in Hg. by destruct Hg as (_ & Hn & _).
    + intros Hn. destruct (main E cfg) as [msg|s h].
      * subst registered. rewrite Hg in Hn. simpl in Hn. lia.
      * destruct Hg as (Hs & _ & Hr). by exists s, h.
  - destruct (main E cfg) as [msg|s h].
    + split; [done|]. apply not_true_is_false. rewrite IsReady_listed, Hg. simpl. lia.
    + destruct Hg as (_ & Hn & Hr). split; [done|]. by apply IsReady_listed.
  - intros ctx req breq w. simpl.
    split; [apply listed_fixed, ScanImage_fixed|].
    split; [apply listed_fixed, ScanBatch_fixed | apply listed_fixed, DetectImage_fixed].
Qed.

End ReadinessWhileServing.

Section EntryPointsScenario.
Import Runtime Go Services Scenarios MoreScenarios.

Lemma unregistered_model_single_example :
  let w := fresh classifiers_only default_config in
  let req := scan_url_unknown_model in
  (ScanImage classifiers_only Background req w).1
    = Err (ErrModelNotFound (ScanRequest.Model req))
  ∧ (DetectImage classifiers_only Background req w).1
    = Err (ErrUnsupportedOperation (ScanRequest.Model req))
  ∧ effects (ScanImage classifiers_only Background req w).2 = effects w
  ∧ effects (DetectImage classifiers_only Background req w).2 = effects w
  ∧ total_scans (ScanImage classifiers_only Background req w).2 = wrap64 (total_scans w + 1)
  ∧ total_scans (DetectImage classifiers_only Background req w).2
    = wrap64 (total_scans w + 1).
Proof.
  apply (unregistered_model_single classifiers_only Background scan_url_unknown_model
           (fresh classifiers_only default_config)).
  vm_compute. reflexivity.
Defined.

Lemma unregistered_model_batch_example :
  let w := fresh no_models default_config in
  (ScanBatch no_models Background batch_of_three w).1
    = Err (ErrModelNotFound (BatchScanRequest.Model batch_of_three))
  ∧ effects (ScanBatch no_models Background batch_of_three w).2 = effects w
  ∧ stats_of (ScanBatch no_models Background batch_of_three w).2 = stats_of w.
Proof.
  apply (unregistered_model_batch no_models Background batch_of_three
           (fresh no_models default_config)).
  vm_compute. reflexivity.
Defined.

End EntryPointsScenario.

Section DetectAndBatch.
Import Runtime Go Services Scenarios MoreScenarios.
Context (E : Env).

(** X22. A detection never panics, whatever the size of the payload: it
    makes no format check on the first 512 bytes.  It records the call when
    it returns and the image once more when it succeeds: two scans for a
    detection that succeeds, one for a detection that fails. *)
Theorem DetectImage_never_panics_and_counts ctx req w :
  let out := DetectImage E ctx req w in
  match out.1 with
  | Ok _ => total_scans out.2 = wrap64 (wrap64 (total_scans w + 1) + 1)
  | Err _ => total_scans out.2 = wrap64 (total_scans w + 1)
  | Panic => False
  end.
Proof.
  unfold DetectImage, DetectImage_body, bind, now, since, get_service, on_stats, ret,
    total_scans. simpl.
  destruct (detectionModelExists _ _); simpl; [|done].
  pose proof (getImageData_frame E (NSFWService.config (service w))
                (ScanRequest.ImageBase64 req) (ScanRequest.ImageURL req)
                (mkWorld (service w) (S (ticks w)) (effects w))) as (Hs & _).
  destruct (getImageData E _ _ _ _) as [[imgData|e|] w1] eqn:Hg; simpl in *.
  - pose proof (RunInference_frame E ctx (ScanRequest.Model req) imgData w1) as (Hst & _).
    pose proof (RunInference_no_panic E ctx (ScanRequest.Model req) imgData w1) as Hnp.
    unfold stats_of in Hst.
    destruct (RunInference E ctx _ imgData w1) as [[r|e|] w2]; simpl in *;
      rewrite ?Hst, ?Hs; done.
  - by rewrite Hs.
  - revert Hg. unfold getImageData, base64ToBytes, urlToBytes, bind, emit, ret.
    repeat case_match; discriminate.
Qed.




End DetectAndBatch.

Section PostprocessingFacts.
Import Runtime Go Services.

(** X24. The standard postprocessing fails exactly on fewer than two
    outputs.  Otherwise the first output is the safe score, the second the
    NSFW score, and the confidence is the larger of the two; further outputs
    are ignored. *)
Theorem postprocessingStandard_scores cfg outputs :
  match postprocessingStandard cfg outputs with
  | None => (length outputs < 2)%nat
  | Some r =>
      outputs !! 0%nat = Some (ScanResponse.SafeScore r)
      ∧ outputs !! 1%nat = Some (ScanResponse.NSFWScore r)
      ∧ QArith_base.Qle (ScanResponse.SafeScore r) (ScanResponse.Confidence r)
      ∧ QArith_base.Qle (ScanResponse.NSFWScore r) (ScanResponse.Confidence r)
      ∧ (ScanResponse.Confidence r = ScanResponse.NSFWScore r
         ∨ ScanResponse.Confidence r = ScanResponse.SafeScore r)
  end.
Proof.
  destruct outputs as [|safe [|nsfw rest]]; simpl; [lia | lia |].
  split; [done|]. split; [done|]. split; [|split].
  - destruct (QArith_base.Qle_bool safe nsfw) eqn:Hle.
    + by apply QArith_base.Qle_bool_iff.
    + apply QArith_base.Qle_refl.
  - destruct (QArith_base.Qle_bool safe nsfw) eqn:Hle.
    + apply QArith_base.Qle_refl.
    + apply QArith_base.Qlt_le_weak, QArith_base.Qnot_le_lt.
      intros H. apply QArith_base.Qle_bool_iff in H. congruence.
  - destruct (QArith_base.Qle_bool safe nsfw); [by left | by right].
Qed.

End PostprocessingFacts.

(* ===================================================================== *)
(** ** Uploaded files: encoding, decoding and the format check *)
(* ===================================================================== *)

Section Base64Facts.
Import Go Base64Enc.

Lemma sextet_cases (P : N → Prop) :
  Forall P (map N.of_nat (seq 0 64)) → ∀ v, (v < 64)%N → P v.
Proof.
  intros H v Hv. rewrite Forall_forall in H. apply H.
  apply list_elem_of_In, in_map_iff. exists (N.to_nat v).
  split; [lia|]. apply in_seq. lia.
Qed.

Lemma b64_char_value v : (v < 64)%N → b64_value (b64_char v) = Some v.
Proof.
  revert v. apply sextet_cases. simpl.
  repeat (apply Forall_cons; split; [vm_compute; reflexivity|]). apply Forall_nil_2.
Qed.

Lemma b64_char_plain v : (v < 64)%N → plain (b64_char v).
Proof.
  revert v. apply sextet_cases. simpl.
  repeat (apply Forall_cons; split; [vm_compute; done|]). apply Forall_nil_2.
Qed.

Lemma pad_plain : plain "="%char.
Proof. vm_compute. done. Qed.

Lemma to_N_lt a : (Byte.to_N a < 256)%N.
Proof. destruct a; vm_compute; reflexivity. Qed.

Lemma byte_of_N_eq n a : (n mod 256 = Byte.to_N a)%N → byte_of_N n = a.
Proof. unfold byte_of_N. intros ->. destruct a; reflexivity. Qed.

Lemma quantum_bytes a b c :
  let v := (Byte.to_N a * 65536 + Byte.to_N b * 256 + Byte.to_N c)%N in
  [byte_of_N (v / 65536); byte_of_N (v / 256); byte_of_N v] = [a; b; c].
Proof.
  intros v. subst v.
  pose proof (to_N_lt a). pose proof (to_N_lt b). pose proof (to_N_lt c).
  set (na := Byte.to_N a) in *. set (nb := Byte.to_N b) in *. set (nc := Byte.to_N c) in *.
  f_equal; [|f_equal; [|f_equal]]; apply byte_of_N_eq; fold na nb nc.
  - assert ((na * 65536 + nb * 256 + nc) / 65536 = na)%N as ->.
    { symmetry. apply (N.div_unique _ _ _ (nb * 256 + nc)); lia. }
    apply N.mod_small. lia.
  - assert ((na * 65536 + nb * 256 + nc) / 256 = na * 256 + nb)%N as ->.
    { symmetry. apply (N.div_unique _ _ _ nc); lia. }
    symmetry. apply (N.mod_unique _ _ na); lia.
  - symmetry. apply (N.mod_unique _ _ (na * 256 + nb)); lia.
Qed.

Lemma sextets a b :
  let na := Byte.to_N a in let nb := Byte.to_N b in
  (na / 4 < 64 ∧ na mod 4 * 16 + nb / 16 < 64 ∧ nb mod 16 * 4 + na / 64 < 64
   ∧ nb mod 16 * 4 < 64 ∧ na mod 4 * 16 < 64 ∧ na mod 64 < 64)%N.
Proof.
  intros na nb. pose proof (to_N_lt a). pose proof (to_N_lt b). fold na nb in H, H0.
  pose proof (N.mod_upper_bound na 4). pose proof (N.mod_upper_bound nb 16).
  pose proof (N.mod_upper_bound na 64).
  assert (na / 4 < 64)%N by (apply N.Div0.div_lt_upper_bound; lia).
  assert (nb / 16 < 16)%N by (apply N.Div0.div_lt_upper_bound; lia).
  assert (na / 64 < 4)%N by (apply N.Div0.div_lt_upper_bound; lia).
  lia.
Qed.

Lemma quantum_three a b c :
  let na := Byte.to_N a in let nb := Byte.to_N b in let nc := Byte.to_N c in
  quantum (na / 4) ((na mod 4) * 16 + nb / 16) ((nb mod 16) * 4 + nc / 64) (nc mod 64)
  = [a; b; c].
Proof.
  intros na nb nc. unfold quantum.
  assert ((na / 4 * 262144 + ((na mod 4) * 16 + nb / 16) * 4096
           + ((nb mod 16) * 4 + nc / 64) * 64 + nc mod 64
           = na * 65536 + nb * 256 + nc)%N) as ->.
  { pose proof (N.div_mod na 4). pose proof (N.div_mod nb 16). pose proof (N.div_mod nc 64).
    lia. }
  apply quantum_bytes.
Qed.

Lemma quantum_two a b :
  let na := Byte.to_N a in let nb := Byte.to_N b in
  take 2 (quantum (na / 4) ((na mod 4) * 16 + nb / 16) ((nb mod 16) * 4) 0) = [a; b].
Proof.
  intros na nb. unfold quantum.
  assert ((na / 4 * 262144 + ((na mod 4) * 16 + nb / 16) * 4096
           + ((nb mod 16) * 4) * 64 + 0
           = na * 65536 + nb * 256 + Byte.to_N Byte.x00)%N) as ->.
  { pose proof (N.div_mod na 4). pose proof (N.div_mod nb 16).
    change (Byte.to_N Byte.x00) with 0%N. lia. }
  subst na nb. rewrite quantum_bytes. done.
Qed.

Lemma quantum_one a :
  let na := Byte.to_N a in
  take 1 (quantum (na / 4) ((na mod 4) * 16) 0 0) = [a].
Proof.
  intros na. unfold quantum.
  assert ((na / 4 * 262144 + ((na mod 4) * 16) * 4096 + 0 * 64 + 0
           = na * 65536 + Byte.to_N Byte.x00 * 256 + Byte.to_N Byte.x00)%N) as ->.
  { pose proof (N.div_mod na 4). change (Byte.to_N Byte.x00) with 0%N. lia. }
  subst na. rewrite quantum_bytes. done.
Qed.

Lemma by_three (P : list Byte.byte → Prop) :
  P [] → (∀ a, P [a]) → (∀ a b, P [a; b]) →
  (∀ a b c rest, P rest → P (a :: b :: c :: rest)) →
  ∀ bs, P bs.
Proof.
  intros H0 H1 H2 H3 bs.
  assert (P bs ∧ (∀ a, P (a :: bs)) ∧ (∀ a b, P (a :: b :: bs))) as [? _]; [|done].
  induction bs as [|c bs (IH0 & IH1 & IH2)]; [done|].
  split; [apply IH1|]. split; [intros; apply IH2|]. intros a b. by apply H3.
Qed.

Lemma decode_encode bs : decode_quanta (encode bs) = Some bs.
Proof.
  induction bs as [|a|a b|a b c rest IH] using by_three.
  - done.
  - pose proof (sextets a a) as (? & ? & ? & ? & ? & ?).
    cbn [encode decode_quanta].
    rewrite !b64_char_value by lia.
    change (b64_value "=") with (@None N). cbn -[quantum take N.div N.modulo N.mul N.add].
    by rewrite quantum_one.
  - pose proof (sextets a b) as (? & ? & ? & ? & ? & ?).
    pose proof (sextets b a) as (? & ? & ? & ? & ? & ?).
    cbn [encode decode_quanta].
    rewrite !b64_char_value by lia.
    change (b64_value "=") with (@None N). cbn -[quantum take N.div N.modulo N.mul N.add].
    by rewrite quantum_two.
  - pose proof (sextets a b) as (? & ? & ? & ? & ? & ?).
    pose proof (sextets c b) as (? & ? & ? & ? & ? & ?).
    cbn [encode decode_quanta].
    rewrite !b64_char_value by lia.
    rewrite IH. by rewrite quantum_three.
Qed.

Lemma encode_plain bs : Forall plain (encode bs).
Proof.
  induction bs as [|a|a b|a b c rest IH] using by_three.
  - constructor.
  - pose proof (sextets a a) as (? & ? & ? & ? & ? & ?).
    cbn [encode]. repeat constructor; try apply b64_char_plain; try apply pad_plain; lia.
  - pose proof (sextets a b) as (? & ? & ? & ? & ? & ?).
    pose proof (sextets b a) as (? & ? & ? & ? & ? & ?).
    cbn [encode]. repeat apply Forall_cons_2; try apply b64_char_plain; try apply pad_plain; try lia.
    constructor.
  - pose proof (sextets a b) as (? & ? & ? & ? & ? & ?).
    pose proof (sextets c b) as (? & ? & ? & ? & ? & ?).
    cbn [encode]. repeat apply Forall_cons_2; try apply b64_char_plain; try lia. done.
Qed.

Lemma encode_length bs : length (encode bs) = (4 * ((length bs + 2) / 3))%nat.
Proof.
  induction bs as [|a|a b|a b c rest IH] using by_three; [done..|].
  cbn [encode length]. rewrite IH.
  replace (S (S (S (length rest))) + 2)%nat with (1 * 3 + (length rest + 2))%nat by lia.
  rewrite Nat.div_add_l by lia. lia.
Qed.

Lemma filter_plain cs :
  Forall plain cs → filter (λ c, is_newline c = false) cs = cs.
Proof.
  induction 1 as [|c cs [Hn _] _ IH]; [done|].
  rewrite filter_cons_True by done. by rewrite IH.
Qed.

Lemma after_comma_plain cs :
  Forall plain cs → after_comma (string_of_list_ascii cs) = None.
Proof.
  induction 1 as [|c cs [_ Hc] _ IH]; [done|]. simpl. by rewrite Hc.
Qed.

Lemma after_comma_EncodeToString bs : after_comma (EncodeToString bs) = None.
Proof. apply after_comma_plain, encode_plain. Qed.

Lemma DecodeString_EncodeToString bs :
  DecodeString (EncodeToString bs)
  = Some (mkSlice (bs ++ zeros (3 * ((length bs + 2) / 3) - length bs)) (length bs)).
Proof.
  unfold DecodeString, EncodeToString.
  rewrite list_ascii_of_string_of_list_ascii.
  rewrite filter_plain by apply encode_plain.
  rewrite decode_encode. unfold DecodedLen. rewrite encode_length.
  do 3 f_equal. f_equal.
  rewrite (Nat.mul_comm 4), Nat.div_mul by lia. lia.
Qed.

Lemma padded_length bs :
  length (bs ++ zeros (3 * ((length bs + 2) / 3) - length bs)) = (3 * ((length bs + 2) / 3))%nat.
Proof.
  unfold zeros. rewrite length_app, length_replicate.
  pose proof (Nat.div_mod (length bs + 2) 3).
  pose proof (Nat.mod_upper_bound (length bs + 2) 3). lia.
Qed.

End Base64Facts.

Section UploadFacts.
Import Runtime Go Base64Enc Multipart Services.
Context (E : Env).

Lemma encode_nonempty bs : bs ≠ [] → nonempty (EncodeToString bs) = true.
Proof.
  unfold EncodeToString. destruct bs as [|a [|b [|c rest]]]; [done|done..].
Qed.

(** A call of [ScanImage] that panics had a registered model and an inline
    payload that decoded, within the ceiling, into a buffer of fewer than
    512 bytes. *)
Lemma ScanImage_panic_inline ctx req w :
  (ScanImage E ctx req w).1 = Panic →
  modelExists (service w) (ScanRequest.Model req) = true
  ∧ nonempty (ScanRequest.ImageBase64 req) = true
  ∧ ∃ data,
      DecodeString (default (ScanRequest.ImageBase64 req)
                            (after_comma (ScanRequest.ImageBase64 req))) = Some data
      ∧ Z.of_nat (len data) ≤ maxBytes (NSFWService.config (service w))
      ∧ (cap data < 512)%nat.
Proof.
  unfold ScanImage, ScanImage_body, getImageData, bind, now, since, on_stats,
    get_service, ret. simpl.
  destruct (modelExists _ _); simpl; [|done].
  destruct (nonempty (ScanRequest.ImageBase64 req)) eqn:Hb; simpl.
  - unfold base64ToBytes, bind, emit, ret. simpl.
    destruct (DecodeString _) as [data|] eqn:Hd; simpl; [|done].
    destruct (Z.ltb_spec (maxBytes (NSFWService.config (service w))) (Z.of_nat (len data)));
      simpl; [done|].
    unfold slice_to. destruct (decide (512 ≤ cap data)%nat) as [Hc|Hc]; simpl.
    + destruct (decodeConfigOk E _); simpl; [|done].
      match goal with
      | |- context [RunInference E ctx ?m ?d ?w0] =>
          pose proof (RunInference_no_panic E ctx m d w0) as Hnp;
          destruct (RunInference E ctx m d w0) as [[r|e|] w2]
      end; simpl in *; done.
    + intros _. split; [done|]. split; [done|]. exists data. split; [done|]. lia.
  - intros H. exfalso. revert H.
    destruct (nonempty (ScanRequest.ImageURL req)); simpl; [|done].
    unfold urlToBytes, bind, emit, ret.
    destruct (httpGet E _) as [| |status cl body readOk]; simpl; [done..|].
    destruct (negb (status =? 200)); simpl; [done|].
    destruct (_ <? cl); simpl; [done|].
    destruct (negb readOk); simpl; [done|].
    destruct (_ <? Z.of_nat _); simpl; [done|].
    unfold slice_to. rewrite decide_True by apply ReadAll_cap. simpl.
    destruct (decodeConfigOk E _); simpl; [|done].
    match goal with
    | |- context [RunInference E ctx ?m ?d ?w0] =>
        pose proof (RunInference_no_panic E ctx m d w0) as Hnp;
        destruct (RunInference E ctx m d w0) as [[r|e|] w2]
    end; simpl in *; done.
Qed.

(** X25.  [ScanImage] panics in exactly one situation: the model is
    registered, the request carries an inline payload, the payload decodes
    to data within the size ceiling, and the buffer the decoder returns has
    a capacity below 512, which the format check [imgData[:512]] needs.
    Every other call returns a response or an error. *)
Theorem ScanImage_panics_exactly ctx req w :
  (ScanImage E ctx req w).1 = Panic ↔
  modelExists (service w) (ScanRequest.Model req) = true
  ∧ nonempty (ScanRequest.ImageBase64 req) = true
  ∧ ∃ data,
      DecodeString (default (ScanRequest.ImageBase64 req)
                            (after_comma (ScanRequest.ImageBase64 req))) = Some data
      ∧ Z.of_nat (len data) ≤ maxBytes (NSFWService.config (service w))
      ∧ (cap data < 512)%nat.
Proof.
  split; [apply ScanImage_panic_inline|].
  intros (Hm & Hb & data & Hd & Hsz & Hcap).
  by apply (ScanImage_short_inline_panics E ctx req w data).
Qed.

(** X26.  Encoding and decoding are inverse on the upload path: the text
    [EncodeToString] makes of the bytes of a file is decoded by
    [base64ToBytes] into these very bytes, in a buffer whose capacity is
    the length rounded up to a multiple of three; the only failure is a
    file over the size ceiling. *)
Theorem encoded_upload_decodes cfg bs w :
  match (base64ToBytes cfg (EncodeToString bs) w).1 with
  | Ok data =>
      bytes data = bs ∧ cap data = (3 * ((length bs + 2) / 3))%nat
      ∧ Z.of_nat (length bs) ≤ maxBytes cfg
  | Err e =>
      e = ErrPayloadTooLarge (Config.MaxFileSizeMB cfg) ∧ maxBytes cfg < Z.of_nat (length bs)
  | Panic => False
  end.
Proof.
  unfold base64ToBytes, bind, emit, ret.
  rewrite after_comma_EncodeToString. cbn [default from_option].
  rewrite DecodeString_EncodeToString. cbn [len fst snd].
  destruct (Z.ltb_spec (maxBytes cfg) (Z.of_nat (length bs))); simpl; [done|].
  split; [|split; [|done]].
  - unfold bytes. simpl. by rewrite take_app_length.
  - unfold cap. cbn [backing]. apply padded_length.
Qed.

(** X27.  For the request [ScanMultipart] builds from an uploaded file, with
    a registered model and a file within the size ceiling, [ScanImage]
    panics exactly when the file has between 1 and 510 bytes. *)
Theorem small_upload_panics ctx model bs w :
  modelExists (service w) model = true →
  Z.of_nat (length bs) ≤ maxBytes (NSFWService.config (service w)) →
  (ScanImage E ctx (scan_request model bs) w).1 = Panic
  ↔ (1 ≤ length bs ≤ 510)%nat.
Proof.
  intros Hm Hsz. split.
  - intros Hp. apply ScanImage_panic_inline in Hp as (_ & Hb & data & Hd & _ & Hcap).
    revert Hb Hd. unfold scan_request. cbn [ScanRequest.Model ScanRequest.ImageBase64].
    rewrite after_comma_EncodeToString. cbn [default from_option].
    rewrite DecodeString_EncodeToString. intros Hb [= <-].
    unfold cap in Hcap. cbn [backing] in Hcap. rewrite padded_length in Hcap.
    pose proof (Nat.div_mod (length bs + 2) 3).
    pose proof (Nat.mod_upper_bound (length bs + 2) 3).
    destruct bs; [done|]. cbn [length] in *. lia.
  - intros Hn.
    apply (ScanImage_short_inline_panics E ctx _ w
             (mkSlice (bs ++ zeros (3 * ((length bs + 2) / 3) - length bs)) (length bs)));
      unfold scan_request; cbn [ScanRequest.Model ScanRequest.ImageBase64 len].
    + done.
    + apply encode_nonempty. destruct bs; cbn [length] in *; [lia|done].
    + rewrite after_comma_EncodeToString. cbn [default from_option].
      apply DecodeString_EncodeToString.
    + done.
    + unfold cap. cbn [backing]. rewrite padded_length.
      pose proof (Nat.div_mod (length bs + 2) 3).
      pose proof (Nat.mod_upper_bound (length bs + 2) 3). lia.
Qed.

End UploadFacts.

Section UploadScenario.
Import Runtime Go Base64Enc Multipart Services Scenarios.

(** X27 at the one-pixel image of 68 bytes, uploaded for a registered
    model. *)
Lemma small_upload_panics_small_image :
  (ScanImage all_models Background (scan_request "mobilenetv2-7" small_image)
     (fresh all_models default_config)).1 = Panic.
Proof.
  apply (small_upload_panics all_models Background "mobilenetv2-7" small_image
           (fresh all_models default_config)).
  - vm_compute. reflexivity.
  - vm_compute. discriminate.
  - vm_compute. lia.
Defined.

End UploadScenario.
